(** * rag-finance-engine: the indexing pipeline and the question-answering bot

    A shallow embedding of [embedAll.js] (the Indexer: [makeEmbedding],
    [serialize], [embedTable], [run]) and of [queryBot.js] ([loadHistory],
    [saveHistory], [fetchContext], [answer]), and the properties of the
    specification established over it.

    Conventions of the embedding:
    - a JavaScript string is a [string] holding its UTF-8 bytes;
    - a value read from the record store or from the history file is a JSON
      [value]; numbers are the integers (the rendering of a fraction is not
      modelled);
    - an [async] function that calls the record store or the model API is a
      computation in the monad [M]: it threads the mutable world and stops at
      the first thrown error, keeping what was written before it;
    - the record store, the embedding model and the chat model are outside
      the code: each is a function of its input, and an oracle says which
      requests fail on the way;
    - the file system works: a file that exists is read, and a write
      replaces it. *)

From Stdlib Require Import ZArith String Ascii List Lia DecimalString.
From stdpp Require Import base decidable option list strings gmap.

Set Default Proof Using "Type".

(** ** JavaScript values and the string primitives the code uses *)

Module Js.

(** What [JSON.parse] and the store client return. An object keeps its
    entries in insertion order, as [Object.entries] enumerates them. *)
#[warnings="-register-all"]
Inductive value : Type :=
| JNull
| JBool (b : bool)
| JNum (n : Z)
| JStr (s : string)
| JArr (items : list value)
| JObj (entries : list (string * value)).

(** A row is the entry list of an object. *)
Abbreviation row := (list (string * value)).

Definition value_eq_dec : ∀ a b : value, {a = b} + {a ≠ b}.
Proof.
  fix IH 1. intros a b.
  decide equality.
  - apply bool_dec.
  - apply Z.eq_dec.
  - apply string_dec.
  - apply (List.list_eq_dec IH).
  - apply List.list_eq_dec. intros [k v] [k' v'].
    destruct (string_dec k k') as [->|Hk]; [|right; congruence].
    destruct (IH v v') as [->|Hv]; [left; reflexivity|right; congruence].
Defined.

#[export] Instance value_eq_decision : EqDecision value := value_eq_dec.

(** [row.k]: the property [k] of a row, [None] for [undefined]. *)
Fixpoint get (k : string) (r : row) : option value :=
  match r with
  | [] => None
  | (k', v) :: r' => if String.eqb k k' then Some v else get k r'
  end.

Definition dq : string := String "034"%char EmptyString.
Definition bs : string := String "092"%char EmptyString.

(** [Array.prototype.join]. *)
Fixpoint join (sep : string) (l : list string) : string :=
  match l with
  | [] => ""
  | [s] => s
  | s :: l' => s +:+ sep +:+ join sep l'
  end.

(** The decimal rendering of an integer number. *)
Definition num_to_string (n : Z) : string :=
  NilZero.string_of_int (Z.to_int n).

(** [String(v)], the conversion a template literal applies to [${v}].
    Inside an array, [null] renders as the empty string. *)
Fixpoint to_string (v : value) : string :=
  match v with
  | JNull => "null"
  | JBool true => "true"
  | JBool false => "false"
  | JNum n => num_to_string n
  | JStr s => s
  | JArr items =>
      join "," (List.map (fun x => match x with JNull => "" | _ => to_string x end) items)
  | JObj _ => "[object Object]"
  end.

Definition template (v : option value) : string :=
  match v with
  | None => "undefined"
  | Some x => to_string x
  end.

Definition hex_digit (n : N) : ascii :=
  ascii_of_N (if (n <? 10)%N then 48 + n else 87 + n).

(** One character of [QuoteJSONString]. *)
Definition escape_char (c : ascii) : string :=
  let n := N_of_ascii c in
  if (n =? 34)%N then bs +:+ dq
  else if (n =? 92)%N then bs +:+ bs
  else if (n =? 8)%N then bs +:+ "b"
  else if (n =? 12)%N then bs +:+ "f"
  else if (n =? 10)%N then bs +:+ "n"
  else if (n =? 13)%N then bs +:+ "r"
  else if (n =? 9)%N then bs +:+ "t"
  else if (n <? 32)%N then
    bs +:+ "u00" +:+ String (hex_digit (n / 16)) (String (hex_digit (n mod 16)) "")
  else String c "".

Fixpoint escape (s : string) : string :=
  match s with
  | EmptyString => ""
  | String c s' => escape_char c +:+ escape s'
  end.

Definition quote (s : string) : string := dq +:+ escape s +:+ dq.

(** [JSON.stringify(v)] with no indentation. *)
Fixpoint stringify (v : value) : string :=
  match v with
  | JNull => "null"
  | JBool true => "true"
  | JBool false => "false"
  | JNum n => num_to_string n
  | JStr s => quote s
  | JArr items => "[" +:+ join "," (List.map stringify items) +:+ "]"
  | JObj entries =>
      "{" +:+ join "," (List.map (fun kv => quote (fst kv) +:+ ":" +:+ stringify (snd kv)) entries)
          +:+ "}"
  end.

Definition upper_char (c : ascii) : ascii :=
  let n := N_of_ascii c in
  if ((97 <=? n) && (n <=? 122))%N then ascii_of_N (n - 32) else c.

(** [String.prototype.toUpperCase] on the ASCII letters; the table names
    the Indexer handles are ASCII. *)
Fixpoint toUpperCase (s : string) : string :=
  match s with
  | EmptyString => ""
  | String c s' => String (upper_char c) (toUpperCase s')
  end.

(** [c] holds [s] verbatim: the relation that [c.includes(s)] decides. *)
Definition occurs_in (s c : string) : Prop :=
  ∃ before after, c = before +:+ s +:+ after.

(** [a.slice(-n)]: the last [n] elements, all of them when there are fewer. *)
Definition slice_last {A} (n : nat) (l : list A) : list A :=
  drop (length l - n) l.

End Js.

(** ** Thrown errors and the monad of the asynchronous code *)

Module Effect.

(** What the code can throw: the error object of a record-store call, a
    failed model-API call, a failed file read, and the [SyntaxError] and
    [TypeError] of JavaScript. *)
Inductive error : Type :=
| StoreError (msg : string)
| UpstreamError (msg : string)
| FsError (msg : string)
| SyntaxError (msg : string)
| TypeError (msg : string).

Inductive result (A : Type) : Type :=
| OK (a : A)
| Err (e : error).
Arguments OK {A} a.
Arguments Err {A} e.

Section Monad.
Context {W : Type}.

(** A computation over the world [W]: on a throw the world reached so far
    is kept (nothing is rolled back). *)
Definition M (A : Type) : Type := W → result A * W.

Definition ret {A} (a : A) : M A := fun w => (OK a, w).
Definition bind {A B} (m : M A) (k : A → M B) : M B :=
  fun w =>
    match m w with
    | (OK a, w') => k a w'
    | (Err e, w') => (Err e, w')
    end.
Definition modify (f : W → W) : M unit := fun w => (OK tt, f w).

(** [for (const x of xs) { await body(x) }] *)
Fixpoint for_each {A} (body : A → M unit) (xs : list A) : M unit :=
  match xs with
  | [] => ret tt
  | x :: xs' => bind (body x) (fun _ => for_each body xs')
  end.
End Monad.

(** The state of the outside services, one entry per request in the order
    the requests are made: [Some e] when the request fails with [e] (an
    outage, a rate limit), [None] when the service answers. Past the end
    of the list every request is answered. *)
Abbreviation oracle := (list (option error)).

Definition answer_of {A} (o : oracle) (response : result A) : result A :=
  match o with
  | Some e :: _ => Err e
  | _ => response
  end.

End Effect.

Declare Scope js_scope.
Delimit Scope js_scope with js.
Notation "x <- m ;; k" := (Effect.bind m (fun x => k))
  (at level 100, m at next level, right associativity) : js_scope.
Notation "m ;;; k" := (Effect.bind m (fun _ => k))
  (at level 100, right associativity) : js_scope.

(** ** The Indexer ([embedAll.js]) *)

Module Indexer.
Import Js Effect.
Local Open Scope js_scope.

Definition TABLES_TO_EMBED : list string :=
  [ "profiles"; "accounts"; "categories"; "transactions"; "budgets";
    "customers"; "invoices"; "vendors"; "bills"; "account_snapshots";
    "monthly_expense_snapshots"; "financial_kb" ].

(** A column value as the store holds it: a property that is absent
    ([undefined]) or [null] is the SQL NULL. *)
Definition column (v : option value) : option value :=
  match v with
  | Some JNull | None => None
  | Some x => Some x
  end.

(** [.eq(col, v)]: the rows whose column equals [v]; nothing equals NULL. *)
Definition eq_filter (col : string) (v : option value) (rows : list row) : list row :=
  match column v with
  | None => []
  | Some x => List.filter (fun r => bool_decide (column (get col r) = Some x)) rows
  end.

(** [.select('c1, c2')] on one row. *)
Definition select_columns (cols : list string) (r : row) : row :=
  List.filter (fun kv => existsb (String.eqb (fst kv)) cols) r.

(** [.single()]: exactly one row, an error otherwise. *)
Definition single (rows : list row) : result row :=
  match rows with
  | [r] => OK r
  | _ => Err (StoreError "JSON object requested, multiple (or no) rows returned")
  end.

Section WithEmbedding.
(** The float vector of the embedding model: the code only carries it. *)
Context {Vec : Type}.

(** The payload of the upsert into [documents]. *)
Record Document : Type := mkDocument {
  user_id : option value;
  source_table : string;
  source_id : option value;
  content : string;
  embedding : Vec
}.

(** What the run reads and never writes: the source tables as the store
    returns them, and the embedding model as a function of its input. *)
Record Env : Type := mkEnv {
  tables : gmap string (list row);
  embed_model : string → Vec
}.

(** What the run changes: the [documents] table, the console, and the
    outside services' answers still to come. *)
Record World : Type := mkWorld {
  documents : list Document;
  console : list string;
  pending : oracle
}.

(** One awaited request to an outside service. *)
Definition request {A} (response : result A) : M (W:=World) A :=
  fun w =>
    (answer_of (pending w) response,
     mkWorld (documents w) (console w) (tail (pending w))).

Definition console_log (line : string) : M (W:=World) unit :=
  modify (fun w => mkWorld (documents w) (console w ++ [line]) (pending w)).

(** [supabaseAdmin.from(table).select('*')] *)
Definition select_all (env : Env) (table : string) : result (list row) :=
  match tables env !! table with
  | Some rows => OK rows
  | None => Err (StoreError ("relation " +:+ table +:+ " does not exist"))
  end.

(** The foreign-key lookup of [serialize]:
    [from('accounts').select('name, type').eq('id', row.account_id).single()] *)
Definition account_of (env : Env) (r : row) : result row :=
  match select_all env "accounts" with
  | OK accts =>
      match single (eq_filter "id" (get "account_id" r) accts) with
      | OK a => OK (select_columns ["name"; "type"] a)
      | Err e => Err e
      end
  | Err e => Err e
  end.

Definition makeEmbedding (env : Env) (text : string) : M (W:=World) Vec :=
  request (OK (embed_model env text)).

Definition noisy (k : string) : bool :=
  existsb (String.eqb k) ["metadata"; "updated_at"].

Definition serialize (env : Env) (table : string) (r : row) : M (W:=World) string :=
  if String.eqb table "account_snapshots" then
    acct <- request (account_of env r) ;;
    ret ("Account Balance | account_name=" +:+ dq +:+ template (get "name" acct) +:+ dq +:+ " | "
         +:+ "account_type=" +:+ dq +:+ template (get "type" acct) +:+ dq
         +:+ " | as_of=" +:+ dq +:+ template (get "snapshot_date" r) +:+ dq +:+ " | "
         +:+ "cash_balance=" +:+ template (get "balance" r))
  else if String.eqb table "monthly_expense_snapshots" then
    ret ("Monthly Expense Snapshot | "
         +:+ "period=" +:+ dq +:+ template (get "period_start" r) +:+ " to "
         +:+ template (get "period_end" r) +:+ dq +:+ " | "
         +:+ "total_expense=" +:+ template (get "total_expense" r))
  else if String.eqb table "financial_kb" then
    ret ("Formula | title=" +:+ dq +:+ template (get "title" r) +:+ dq
         +:+ " | expression=" +:+ dq +:+ template (get "content" r) +:+ dq)
  else
    let fields :=
      join " | "
        (List.map (fun kv => fst kv +:+ "=" +:+ stringify (snd kv))
           (List.filter (fun kv => negb (noisy (fst kv))) r)) in
    ret (toUpperCase table +:+ " | " +:+ fields).

(** The unique constraint of [documents] on [(source_table, source_id)]:
    two rows conflict when both columns are equal; NULL equals nothing. *)
Definition conflicts (d d' : Document) : bool :=
  String.eqb (source_table d) (source_table d')
  && match source_id d, source_id d' with
     | Some a, Some b => bool_decide (a = b)
     | _, _ => false
     end.

(** [upsert(d, { onConflict: ['source_table', 'source_id'] })]: the
    conflicting row is overwritten where it stands, a new row is added
    otherwise. *)
Definition upsert (d : Document) (docs : list Document) : list Document :=
  if existsb (conflicts d) docs
  then List.map (fun x => if conflicts d x then d else x) docs
  else docs ++ [d].

Definition upsert_request (d : Document) : M (W:=World) unit :=
  request (OK tt) ;;;
  modify (fun w => mkWorld (upsert d (documents w)) (console w) (pending w)).

(** The body of the loop of [embedTable]. *)
Definition embedRow (env : Env) (table : string) (r : row) : M (W:=World) unit :=
  content <- serialize env table r ;;
  embedding <- makeEmbedding env content ;;
  (upsert_request
     (mkDocument (column (get "user_id" r)) table (column (get "id" r)) content embedding) ;;;
   console_log ("📝  " +:+ table +:+ " " +:+ template (get "id" r))).

(** The head of [embedTable]: the progress line, then the read of the table. *)
Definition readTable (env : Env) (table : string) : M (W:=World) (list row) :=
  console_log ("⏳ Embedding " +:+ table +:+ "...") ;;;
  request (select_all env table).

Definition embedTable (env : Env) (table : string) : M (W:=World) unit :=
  rows <- readTable env table ;;
  for_each (embedRow env table) rows.

Definition run_tables (env : Env) (ts : list string) : M (W:=World) unit :=
  for_each (embedTable env) ts.

Definition run (env : Env) : M (W:=World) unit :=
  run_tables env TABLES_TO_EMBED ;;;
  console_log "✅ All embeddings inserted".

(** The key of a stored document under the unique constraint; a document
    whose [source_id] is NULL has none. *)
Definition doc_key (d : Document) : option (string * value) :=
  match source_id d with
  | Some i => Some (source_table d, i)
  | None => None
  end.

Definition keys (docs : list Document) : list (string * value) := omap doc_key docs.

(** A sequence of upserts, first to last. *)
Definition upsert_all (us docs : list Document) : list Document :=
  fold_left (fun s u => upsert u s) us docs.

(** What an upsert of [d], and then a sequence of upserts, makes of one
    stored document [x]. *)
Definition step (d x : Document) : Document := if conflicts d x then d else x.


(** The fact of a row: what [serialize] returns when its lookup request is
    answered by the store. *)
Definition fact (env : Env) (table : string) (r : row) : result string :=
  (serialize env table r (mkWorld [] [] [])).1.

(** The document [embedRow] upserts for a row that has a fact. *)
Definition doc_of (env : Env) (table : string) (r : row) : option Document :=
  match fact env table r with
  | OK c => Some (mkDocument (column (get "user_id" r)) table (column (get "id" r)) c
                    (embed_model env c))
  | Err _ => None
  end.

(** The upserts of a run in which no request fails, in the order made. *)
Definition plan_table (env : Env) (table : string) : list Document :=
  match select_all env table with
  | OK rows => omap (doc_of env table) rows
  | Err _ => []
  end.

Definition plan (env : Env) (ts : list string) : list Document :=
  flat_map (plan_table env) ts.

(** [id] is the primary key of every source table: never NULL, never twice
    in a table. *)
Definition primary_key (rows : list row) : Prop :=
  NoDup (List.map (fun r => column (get "id" r)) rows)
  ∧ ∀ r, r ∈ rows → column (get "id" r) ≠ None.

Definition well_keyed (env : Env) : Prop :=
  ∀ t rows, tables env !! t = Some rows → primary_key rows.

End WithEmbedding.

Arguments Document : clear implicits.
Arguments Env : clear implicits.
Arguments World : clear implicits.

End Indexer.

(** ** The question-answering bot ([queryBot.js]) *)

Module QueryBot.
Import Js Effect.
Local Open Scope js_scope.

Definition HISTORY_LIMIT : nat := 10.

Definition nl : string := String "010"%char EmptyString.

(** One message [{ role, content }]. *)
Record ChatTurn : Type := mkTurn {
  role : string;
  content : string
}.

(** What [JSON.parse] makes of the text of [chat_history.json]: the object
    keyed by user id that [saveHistory] writes, or the text [null]. Other
    JSON texts are outside the model. *)
Inductive Parsed : Type :=
| PNull
| PObject (all : gmap string (list ChatTurn)).

(** The file [HISTORY_FILE]. A file that holds [p] holds the text
    [JSON.stringify(p, null, 2)], which [JSON.parse] reads back as [p]. *)
Inductive HistoryFile : Type :=
| Missing
| Unparseable
| Holds (p : Parsed).

(** [JSON.parse(fs.readFileSync(HISTORY_FILE, 'utf8'))] *)
Definition read_parse (f : HistoryFile) : result Parsed :=
  match f with
  | Missing => Err (FsError "ENOENT: no such file or directory, open 'chat_history.json'")
  | Unparseable => Err (SyntaxError "Unexpected token in JSON")
  | Holds p => OK p
  end.

(** [all[userId]]: reading a property of [null] throws. *)
Definition get_prop (all : Parsed) (userId : string) : result (option (list ChatTurn)) :=
  match all with
  | PNull => Err (TypeError "Cannot read properties of null")
  | PObject m => OK (m !! userId)
  end.

(** [all[userId] = turns]: setting a property of [null] throws. *)
Definition set_prop (all : Parsed) (userId : string) (turns : list ChatTurn) : result Parsed :=
  match all with
  | PNull => Err (TypeError "Cannot set properties of null")
  | PObject m => OK (PObject (<[userId := turns]> m))
  end.

Definition loadHistory (userId : string) (f : HistoryFile) : list ChatTurn :=
  let body :=
    match read_parse f with
    | OK all =>
        match get_prop all userId with
        | OK (Some turns) => OK (slice_last HISTORY_LIMIT turns)
        | OK None => OK []
        | Err e => Err e
        end
    | Err e => Err e
    end in
  match body with
  | OK turns => turns
  | Err _ => []
  end.

Definition saveHistory (userId : string) (history : list ChatTurn) (f : HistoryFile)
  : result HistoryFile :=
  let all :=
    match read_parse f with
    | OK p => p
    | Err _ => PObject ∅
    end in
  match set_prop all userId (slice_last HISTORY_LIMIT history) with
  | OK all' => OK (Holds all')
  | Err e => Err e
  end.

(** The UTF-8 encodings of the characters [String.prototype.trim] strips:
    tab, line feed, vertical tab, form feed, carriage return, space,
    U+00A0, U+1680, U+2000 to U+200A, U+2028, U+2029, U+202F, U+205F,
    U+3000 and U+FEFF. *)
Definition bytes (l : list N) : string :=
  List.fold_right (fun n s => String (ascii_of_N n) s) EmptyString l.

Definition white_space : list string :=
  List.map bytes
    ([ [9]; [10]; [11]; [12]; [13]; [32]; [194; 160]; [225; 154; 128] ]
     ++ List.map (fun n => [226; 128; n]) [128; 129; 130; 131; 132; 133; 134; 135; 136; 137; 138]
     ++ [ [226; 128; 168]; [226; 128; 169]; [226; 128; 175]; [226; 129; 159];
          [227; 128; 128]; [239; 187; 191] ])%N.

Fixpoint strip_prefix (p s : string) : option string :=
  match p, s with
  | EmptyString, _ => Some s
  | String a p', String b s' => if Ascii.eqb a b then strip_prefix p' s' else None
  | String _ _, EmptyString => None
  end.

Fixpoint strip_any (tokens : list string) (s : string) : option string :=
  match tokens with
  | [] => None
  | t :: ts =>
      match strip_prefix t s with
      | Some s' => Some s'
      | None => strip_any ts s
      end
  end.

Fixpoint trim_start_from (tokens : list string) (fuel : nat) (s : string) : string :=
  match fuel with
  | O => s
  | S fuel' =>
      match strip_any tokens s with
      | Some s' => trim_start_from tokens fuel' s'
      | None => s
      end
  end.

Definition rev_string (s : string) : string :=
  string_of_list_ascii (List.rev (list_ascii_of_string s)).

Definition trim (s : string) : string :=
  let s1 := trim_start_from white_space (String.length s) s in
  rev_string
    (trim_start_from (List.map rev_string white_space) (String.length s1) (rev_string s1)).

(** The sentence the policy prompt tells the model to answer with when the
    context lacks the information. *)
Definition REFUSAL : string :=
  "I’m a financial assistant and can only provide answers based on the financial data available to me.".

Definition policyPrompt : string :=
  join " "
    [ "You are a senior financial analyst assistant, expert in accounting.";
      "For **financial** questions, you may ONLY use the supplied context.";
      "If information is missing, respond exactly:";
      dq +:+ REFUSAL +:+ dq;
      "For **meta** questions about your previous answers (e.g. " +:+ dq
        +:+ "why did you …" +:+ dq +:+ "),";
      "you may explain your reasoning even if that reasoning isn’t in the context.";
      "- Always cite which context rows or formulas you used when giving numbers." ].

(** An element of an array under [join]: [null] and [undefined] are empty. *)
Definition join_item (v : option value) : string :=
  match v with
  | None | Some JNull => ""
  | Some x => to_string x
  end.

Section WithEmbedding.
Context {Vec : Type}.

(** The outside world of one invocation: the user, the [financial_kb]
    table, the [match_documents] function of the store (user id, query
    vector, threshold, count), the embedding model and the chat model. *)
Record Env : Type := mkEnv {
  USER_ID : string;
  financial_kb : list row;
  match_documents : string → Vec → Z → Z → list row;
  embed_model : string → Vec;
  chat_model : list ChatTurn → string
}.

Record World : Type := mkWorld {
  history_file : HistoryFile;
  pending : oracle
}.

Definition request {A} (response : result A) : M (W:=World) A :=
  fun w => (answer_of (pending w) response, mkWorld (history_file w) (tail (pending w))).

Definition embed (env : Env) (text : string) : M (W:=World) Vec :=
  request (OK (embed_model env text)).

Definition kb_line (d : row) : string :=
  "**" +:+ template (get "title" d) +:+ "**: " +:+ template (get "content" d).

Definition fetchContext (env : Env) (question : string) (count : Z) : M (W:=World) string :=
  defs <- request (OK (List.map (Indexer.select_columns ["title"; "content"])
                         (financial_kb env))) ;;
  let kbText := join nl (List.map kb_line defs) in
  qvec <- embed env question ;;
  rows <- request (OK (match_documents env (USER_ID env) qvec 0 count)) ;;
  let dataText :=
    join (nl +:+ "---" +:+ nl) (List.map (fun r => join_item (get "content" r)) rows) in
  ret (join nl [ "--- FINANCIAL FORMULAS ---"; kbText; ""; "--- USER DATA ROWS ---"; dataText ]).

(** The rows the similarity search returns for a question, and the block
    [fetchContext] builds from them once its three requests are answered. *)
Definition retrieved (env : Env) (question : string) (count : Z) : list row :=
  match_documents env (USER_ID env) (embed_model env question) 0 count.

Definition context_of (env : Env) (question : string) (count : Z) : string :=
  "--- FINANCIAL FORMULAS ---" +:+ nl
  +:+ join nl (List.map kb_line (financial_kb env)) +:+ nl
  +:+ nl
  +:+ "--- USER DATA ROWS ---" +:+ nl
  +:+ join (nl +:+ "---" +:+ nl)
        (List.map (fun r => join_item (get "content" r)) (retrieved env question count)).

Definition read_history (userId : string) : M (W:=World) (list ChatTurn) :=
  fun w => (OK (loadHistory userId (history_file w)), w).

Definition write_history (userId : string) (history : list ChatTurn) : M (W:=World) unit :=
  fun w =>
    match saveHistory userId history (history_file w) with
    | OK f => (OK tt, mkWorld f (pending w))
    | Err e => (Err e, w)
    end.

Definition messages_of (history : list ChatTurn) (context question : string)
  : list ChatTurn :=
  history ++ [ mkTurn "system" policyPrompt; mkTurn "system" context; mkTurn "user" question ].

Definition answer (env : Env) (question : string) : M (W:=World) string :=
  context <- fetchContext env question 50 ;;
  history <- read_history (USER_ID env) ;;
  let messages := messages_of history context question in
  resp <- request (OK (chat_model env messages)) ;;
  let assistantReply := trim resp in
  (write_history (USER_ID env)
     (history ++ [ mkTurn "user" question; mkTurn "assistant" assistantReply ]) ;;;
   ret assistantReply).

End WithEmbedding.

Arguments Env : clear implicits.

End QueryBot.

(** ** Concrete worlds used to exercise the statements *)

Module Examples.
Import Js Effect Indexer.

Definition accounts_rows : list row :=
  [ [("id", JStr "a1"); ("user_id", JStr "u1"); ("name", JStr "Main Checking");
     ("type", JStr "cash"); ("currency", JStr "USD")] ].

Definition snapshot_row : row :=
  [ ("id", JStr "s1"); ("user_id", JStr "u1"); ("account_id", JStr "a1");
    ("snapshot_date", JStr "2025-03-31"); ("balance", JNum 15900) ].


Definition categories_rows : list row :=
  [ [("id", JStr "c1"); ("user_id", JStr "u1"); ("name", JStr "Sales");
     ("type", JStr "income"); ("parent_id", JNull)];
    [("id", JStr "c2"); ("user_id", JStr "u1"); ("name", JStr "COGS");
     ("type", JStr "cogs"); ("parent_id", JNull)];
    [("id", JStr "c3"); ("user_id", JStr "u1"); ("name", JStr "Rent");
     ("type", JStr "expense"); ("parent_id", JNull)] ].

(** A stand-in for the embedding model: the length of the text. *)
Definition toy_model (text : string) : list Z := [Z.of_nat (String.length text)].

(** A store with every table of the list: one account, three categories,
    one balance snapshot, the other tables empty. *)
Definition source_tables (snapshot : row) : list (string * list row) :=
  [ ("profiles", []); ("accounts", accounts_rows); ("categories", categories_rows);
    ("transactions", []); ("budgets", []); ("customers", []); ("invoices", []);
    ("vendors", []); ("bills", []); ("account_snapshots", [snapshot]);
    ("monthly_expense_snapshots", []); ("financial_kb", []) ].

Definition env_A : Env (list Z) :=
  mkEnv (list_to_map (source_tables snapshot_row)) toy_model.


Definition world_0 : World (list Z) := mkWorld [] [] [].

(** The embedding of the second category is refused; every request before
    it is answered. *)
Definition world_outage : World (list Z) :=
  mkWorld [] []
    [ None; None; None; None; None; None; None; Some (UpstreamError "503 Service Unavailable") ].

(** Twelve turns of one conversation, oldest first. *)
Definition twelve_turns : list QueryBot.ChatTurn :=
  List.map (fun n => QueryBot.mkTurn (if Nat.even n then "user" else "assistant")
                       ("turn " +:+ num_to_string (Z.of_nat n)))
           (seq 1 12).

Definition kb_rows : list row :=
  [ [("id", JNum 1); ("title", JStr "Runway");
     ("content", JStr "Runway = Current Cash Balance / Monthly Burn Rate")];
    [("id", JNum 2); ("title", JStr "Gross Margin");
     ("content", JStr "Gross Margin = (Revenue - COGS) / Revenue")] ].

Definition matched_rows : list row :=
  [ [("content", JStr "Monthly Expense Snapshot | period=2025-03 | total_expense=16500");
     ("similarity", JNum 1)];
    [("content", JStr "CATEGORIES | id=1 | name=Rent"); ("similarity", JNum 0)] ].

(** A chat model that answers with a figure whatever it is sent. *)
Definition eager_model (messages : list QueryBot.ChatTurn) : string :=
  " Your cash balance is 42. ".

Definition env_bot : QueryBot.Env (list Z) :=
  QueryBot.mkEnv "u1" kb_rows (fun _ _ _ _ => matched_rows) toy_model eager_model.

(** The same bot over an empty glossary and a store with no matching row. *)
Definition env_empty : QueryBot.Env (list Z) :=
  QueryBot.mkEnv "u1" [] (fun _ _ _ _ => []) toy_model eager_model.

Definition question : string := "What is my cash balance?".

Definition two_users : gmap string (list QueryBot.ChatTurn) :=
  <["u2" := [QueryBot.mkTurn "user" "hello"]]> (<["u1" := [QueryBot.mkTurn "user" "old"]]> ∅).
End Examples.

(** ** The entry points of the scripts *)

Module Scripts.
Import Js Effect Indexer.
Local Open Scope js_scope.

(** [err.message] *)
Definition message (e : error) : string :=
  match e with
  | StoreError m | UpstreamError m | FsError m | SyntaxError m | TypeError m => m
  end.

Definition DONE : string := "✅ All embeddings inserted".

(** The two kinds of line [embedTable] logs. *)
Definition progress_line (line : string) : Prop :=
  ∃ rest, line = "⏳ Embedding " +:+ rest ∨ line = "📝  " +:+ rest.

Section WithEmbedding.
Context {Vec : Type}.

(** How the process of [embedAll.js] ends: [run().catch(...)] reports the
    error on the error stream and exits with code 1; a run that returns
    lets the process end with code 0. *)
Record Ended : Type := mkEnded {
  exit_code : Z;
  reported : option error
}.

Definition entrypoint (env : Env Vec) (w : World Vec) : Ended * World Vec :=
  match run env w with
  | (OK _, w') => (mkEnded 0 None, w')
  | (Err e, w') => (mkEnded 1 (Some e), w')
  end.

(** What a script printed and how it exited. *)
Record Printed : Type := mkPrinted {
  code : Z;
  out : list string;
  err : list string
}.

(** [countDocs.js]: an exact count of the [documents] table. *)
Definition countDocuments (w : World Vec) : Printed * World Vec :=
  match request (OK (length (documents w))) w with
  | (OK count, w') =>
      (mkPrinted 0 ["📄 documents table has " +:+ num_to_string (Z.of_nat count) +:+ " rows"] [],
       w')
  | (Err e, w') => (mkPrinted 1 [] ["Error counting documents: " +:+ message e], w')
  end.

(** The rows of the tables of the list, counted. *)
Definition row_count (env : Env Vec) : nat :=
  sum_list (List.map (fun t => match tables env !! t with
                               | Some rows => length rows
                               | None => 0
                               end) TABLES_TO_EMBED).

(** A document made from a row of a table of the list. *)
Definition sourced (env : Env Vec) (u : Document Vec) : Prop :=
  ∃ t rows r, t ∈ TABLES_TO_EMBED ∧ tables env !! t = Some rows ∧ r ∈ rows
              ∧ doc_of env t r = Some u.

(** [w'] is [w] after the upserts [us] and the progress lines [lines]. *)
Definition extends_by (env : Env Vec) (w w' : World Vec)
    (us : list (Document Vec)) (lines : list string) : Prop :=
  documents w' = upsert_all us (documents w)
  ∧ Forall (sourced env) us
  ∧ console w' = console w ++ lines
  ∧ Forall progress_line lines.

End WithEmbedding.
End Scripts.

(** ** The command line of the bot ([main] and [greet] of [queryBot.js]) *)

Module Cli.
Import Js Effect QueryBot.
Local Open Scope js_scope.

(** [ToBoolean], as [||] applies it. *)
Definition truthy (v : option value) : bool :=
  match v with
  | None | Some JNull => false
  | Some (JBool b) => b
  | Some (JNum n) => negb (n =? 0)%Z
  | Some (JStr s) => negb (String.eqb s "")
  | Some (JArr _) | Some (JObj _) => true
  end.

Definition USAGE : string :=
  "Usage: node queryBot.js " +:+ dq +:+ "Your financial question here" +:+ dq.

(** [console.log('\n📊 Answer:\n', ans)]: the arguments, a space between. *)
Definition answer_line (ans : string) : string :=
  nl +:+ "📊 Answer:" +:+ nl +:+ " " +:+ ans.

(** [console.error('❌ Error:', err.message)] *)
Definition error_line (e : error) : string := "❌ Error: " +:+ Scripts.message e.

(** How [main] ends: [process.exit(code)] or the end of the program, or a
    rejection that nothing handles. *)
Inductive Exit : Type :=
| ExitCode (code : Z)
| Unhandled (e : error).

(** The process: the world of the bot and the two output streams. *)
Record Process : Type := mkProcess {
  world : World;
  stdout : list string;
  stderr : list string
}.

Definition in_world {A} (m : M (W:=World) A) : M (W:=Process) A :=
  fun p =>
    match m (world p) with
    | (r, w') => (r, mkProcess w' (stdout p) (stderr p))
    end.

Definition log (line : string) : M (W:=Process) unit :=
  modify (fun p => mkProcess (world p) (stdout p ++ [line]) (stderr p)).

Definition log_error (line : string) : Process → Process :=
  fun p => mkProcess (world p) (stdout p) (stderr p ++ [line]).

Section WithEmbedding.
Context {Vec : Type}.

(** The bot and the [profiles] table that [greet] reads. *)
Record Shell : Type := mkShell {
  bot : Env Vec;
  profiles : list row
}.

(** [from('profiles').select('name').eq('id', USER_ID).single()] *)
Definition profile_of (sh : Shell) : result row :=
  match Indexer.single
          (Indexer.eq_filter "id" (Some (JStr (USER_ID (bot sh)))) (profiles sh)) with
  | OK a => OK (Indexer.select_columns ["name"] a)
  | Err e => Err e
  end.

Definition greeting (data : row) : string :=
  "👋 Hello "
  +:+ (if truthy (get "name" data) then template (get "name" data) else "there")
  +:+ "!".

Definition greet (sh : Shell) : M (W:=Process) unit :=
  data <- in_world (request (profile_of sh)) ;;
  log (greeting data).

(** [args] is [process.argv.slice(2)]. *)
Definition main (sh : Shell) (args : list string) (p : Process) : Exit * Process :=
  match greet sh p with
  | (Err e, p1) => (Unhandled e, p1)
  | (OK _, p1) =>
      let question := join " " args in
      if String.eqb question "" then (ExitCode 1, log_error USAGE p1)
      else
        match in_world (answer (bot sh) question) p1 with
        | (OK ans, p2) =>
            (ExitCode 0, mkProcess (world p2) (stdout p2 ++ [answer_line ans]) (stderr p2))
        | (Err e, p2) => (ExitCode 1, log_error (error_line e) p2)
        end
  end.

End WithEmbedding.

Arguments Shell : clear implicits.

End Cli.

(** ** More concrete worlds *)

Module MoreExamples.
Import Js Effect Examples.

Definition profile_rows : list row :=
  [ [("id", JStr "u1"); ("name", JStr "Dana")];
    [("id", JStr "u2"); ("name", JNull)] ].

Definition shell_bot : Cli.Shell (list Z) := Cli.mkShell env_bot profile_rows.

Definition fresh_process : Cli.Process :=
  Cli.mkProcess (QueryBot.mkWorld QueryBot.Missing []) [] [].


(** Two users have a history and the chat model is down. *)
Definition chat_down : QueryBot.World :=
  QueryBot.mkWorld (QueryBot.Holds (QueryBot.PObject two_users))
    [None; None; None; Some (UpstreamError "500")].

(** A row of a table with no template, with the two fields the generic
    serialization leaves out. *)
Definition vendor_row : row :=
  [ ("id", JStr "v1"); ("user_id", JStr "u1"); ("name", JStr "Acme");
    ("metadata", JObj [("source", JStr "import")]); ("updated_at", JStr "2025-05-07") ].


(** The bot of a user that has no profile row. *)
Definition shell_stranger : Cli.Shell (list Z) := Cli.mkShell env_bot [].

(** The store refuses the upsert of the second category. *)
Definition world_refusal : Indexer.World (list Z) :=
  Indexer.mkWorld [] []
    [ None; None; None; None; None; None; None; None; Some (StoreError "409 Conflict") ].

(** The read of the [categories] table times out. *)
Definition world_timeout : Indexer.World (list Z) :=
  Indexer.mkWorld [] [] [ None; None; None; None; Some (StoreError "timeout") ].

(** A document left in the store by an earlier run, whose row is gone. *)
Definition stale_document : Indexer.Document (list Z) :=
  Indexer.mkDocument (Some (JStr "u1")) "vendors" (Some (JStr "gone")) "VENDORS | id=gone" [17%Z].

End MoreExamples.

(** ** Laws of the monad *)

Module EffectFacts.
Import Effect.

Section Laws.
Context {W : Type}.
Implicit Types (w : W).

Lemma bind_ok {A B} (m : M (W:=W) A) (k : A → M B) w a w' :
  m w = (OK a, w') → bind m k w = k a w'.
Proof. unfold bind. by intros ->. Qed.

Lemma bind_err {A B} (m : M (W:=W) A) (k : A → M B) w e w' :
  m w = (Err e, w') → bind m k w = (Err e, w').
Proof. unfold bind. by intros ->. Qed.

Lemma bind_inv_ok {A B} (m : M (W:=W) A) (k : A → M B) w b w'' :
  bind m k w = (OK b, w'') → ∃ a w', m w = (OK a, w') ∧ k a w' = (OK b, w'').
Proof. unfold bind. destruct (m w) as [[a|e] w']; [eauto|done]. Qed.

Lemma for_each_app {A} (body : A → M (W:=W) unit) xs ys w :
  for_each body (xs ++ ys) w =
  match for_each body xs w with
  | (OK _, w') => for_each body ys w'
  | (Err e, w') => (Err e, w')
  end.
Proof.
  revert w. induction xs as [|x xs IH]; intros w; [done|].
  simpl. unfold bind. destruct (body x w) as [[[]|e] w']; [apply IH|done].
Qed.

(** A loop stops at the first element whose body throws: the elements after
    it play no part in the outcome. *)
Lemma for_each_stops {A} (body : A → M (W:=W) unit) xs x ys w w' e w'' :
  for_each body xs w = (OK tt, w') →
  body x w' = (Err e, w'') →
  for_each body (xs ++ x :: ys) w = (Err e, w'').
Proof.
  intros Hxs Hx. rewrite for_each_app, Hxs. simpl. by rewrite (bind_err _ _ _ _ _ Hx).
Qed.

End Laws.
End EffectFacts.

(** ** Properties of the Indexer *)

Module IndexerFacts.
Import Js Effect EffectFacts Indexer.
Local Open Scope js_scope.

Section WithEmbedding.
Context {Vec : Type}.
Implicit Types (env : Env Vec) (w : World Vec) (d u v x y : Document Vec).

(** [serialize] reads the world only through the answer to its one
    lookup request, and writes neither documents nor console. *)
Lemma serialize_account_snapshots env r w :
  serialize env "account_snapshots" r w =
  match request (account_of env r) w with
  | (OK acct, w') =>
      (OK ("Account Balance | account_name=" +:+ dq +:+ template (get "name" acct) +:+ dq
           +:+ " | " +:+ "account_type=" +:+ dq +:+ template (get "type" acct) +:+ dq
           +:+ " | as_of=" +:+ dq +:+ template (get "snapshot_date" r) +:+ dq +:+ " | "
           +:+ "cash_balance=" +:+ template (get "balance" r)), w')
  | (Err e, w') => (Err e, w')
  end.
Proof. reflexivity. Qed.

Lemma serialize_other env1 env2 table r w1 w2 :
  table ≠ "account_snapshots" →
  (serialize env1 table r w1).1 = (serialize env2 table r w2).1.
Proof.
  intros Hne. unfold serialize.
  destruct (String.eqb_spec table "account_snapshots") as [->|_]; [done|].
  destruct (String.eqb table "monthly_expense_snapshots"); [done|].
  destruct (String.eqb table "financial_kb"); done.
Qed.

(** C1. Scenario A: the balance snapshot of 2025-03-31 with balance 15900,
    whose account lookup yields "Main Checking" of type "cash", is
    serialized to exactly the fact string of the scenario; and for every
    table and row, two calls whose lookup results are identical return
    identical output. *)
Theorem serialize_scenario_A_and_deterministic :
  (∀ env w (r acct : row),
      get "snapshot_date" r = Some (JStr "2025-03-31") →
      get "balance" r = Some (JNum 15900) →
      (request (account_of env r) w).1 = OK acct →
      get "name" acct = Some (JStr "Main Checking") →
      get "type" acct = Some (JStr "cash") →
      (serialize env "account_snapshots" r w).1 =
      OK ("Account Balance | account_name=" +:+ dq +:+ "Main Checking" +:+ dq
          +:+ " | account_type=" +:+ dq +:+ "cash" +:+ dq
          +:+ " | as_of=" +:+ dq +:+ "2025-03-31" +:+ dq +:+ " | cash_balance=15900"))
  ∧ (∀ env1 env2 w1 w2 table (r : row),
      (request (account_of env1 r) w1).1 = (request (account_of env2 r) w2).1 →
      (serialize env1 table r w1).1 = (serialize env2 table r w2).1).
Proof.
  split.
  - intros env w r acct Hdate Hbal Hacct Hname Htype.
    rewrite serialize_account_snapshots.
    destruct (request (account_of env r) w) as [[a|e] w'] eqn:Hreq;
      simpl in Hacct; [|discriminate].
    injection Hacct as ->. rewrite Hname, Htype, Hdate, Hbal. reflexivity.
  - intros env1 env2 w1 w2 table r Hsame.
    destruct (decide (table = "account_snapshots")) as [->|Hne].
    + rewrite !serialize_account_snapshots.
      destruct (request (account_of env1 r) w1) as [[a1|e1] w1'],
               (request (account_of env2 r) w2) as [[a2|e2] w2'];
        simpl in Hsame; try discriminate; by simplify_eq.
    + by apply serialize_other.
Qed.

(** *** The unique constraint under [upsert] *)

Lemma conflicts_keys d x :
  conflicts d x = true ↔ ∃ k, doc_key d = Some k ∧ doc_key x = Some k.
Proof.
  unfold conflicts, doc_key. split.
  - intros [Ht Hi]%andb_prop. apply String.eqb_eq in Ht.
    destruct (source_id d) as [a|], (source_id x) as [b|]; try done.
    apply bool_decide_eq_true in Hi. subst. rewrite Ht. eauto.
  - intros (k & Hd & Hx).
    destruct (source_id d) as [a|], (source_id x) as [b|]; try done.
    apply andb_true_intro. split; [apply String.eqb_eq|apply bool_decide_eq_true];
      congruence.
Qed.

Lemma conflicts_false d x :
  conflicts d x = false ↔ ∀ k, doc_key d = Some k → doc_key x ≠ Some k.
Proof.
  split.
  - intros Hf k Hd Hx. assert (conflicts d x = true) by (apply conflicts_keys; eauto).
    congruence.
  - intros Hk. destruct (conflicts d x) eqn:Hc; [|done].
    apply conflicts_keys in Hc as (k & Hd & Hx). by destruct (Hk k Hd).
Qed.




Lemma doc_key_step u x : doc_key (step u x) = doc_key x.
Proof.
  unfold step. destruct (conflicts u x) eqn:Hux; [|done].
  apply conflicts_keys in Hux as (k & -> & ->). done.
Qed.

Lemma present_iff d (s : list (Document Vec)) :
  existsb (conflicts d) s = true ↔ ∃ k, doc_key d = Some k ∧ k ∈ keys s.
Proof.
  unfold keys. rewrite existsb_exists. split.
  - intros (x & Hx & (k & Hd & Hk)%conflicts_keys). exists k. split; [done|].
    apply list_elem_of_omap. exists x. split; [by apply list_elem_of_In|done].
  - intros (k & Hd & (x & Hx & Hk)%list_elem_of_omap).
    exists x. split; [by apply list_elem_of_In|]. apply conflicts_keys. eauto.
Qed.

Lemma upsert_present d (s : list (Document Vec)) :
  existsb (conflicts d) s = true → upsert d s = List.map (step d) s.
Proof. unfold upsert. by intros ->. Qed.

Lemma upsert_absent d (s : list (Document Vec)) :
  existsb (conflicts d) s = false → upsert d s = s ++ [d].
Proof. unfold upsert. by intros ->. Qed.

Lemma keys_map_step d (s : list (Document Vec)) : keys (List.map (step d) s) = keys s.
Proof.
  unfold keys. induction s as [|x s IH]; [done|].
  simpl. rewrite doc_key_step. destruct (doc_key x); [f_equal|]; exact IH.
Qed.












Lemma elem_of_upsert_other x d (s : list (Document Vec)) :
  x ∈ s → conflicts d x = false → x ∈ upsert d s.
Proof.
  intros Hx Hc. destruct (existsb (conflicts d) s) eqn:Hp.
  - rewrite (upsert_present _ _ Hp).
    apply list_elem_of_In, List.in_map_iff. exists x.
    split; [unfold step; by rewrite Hc|by apply list_elem_of_In].
  - rewrite (upsert_absent _ _ Hp). apply elem_of_app. by left.
Qed.



Lemma upsert_all_app us vs (s : list (Document Vec)) :
  upsert_all (us ++ vs) s = upsert_all vs (upsert_all us s).
Proof. unfold upsert_all. by rewrite fold_left_app. Qed.




(** The document of a key that no later upsert touches is stored at the end. *)
Lemma upsert_all_keeps us (s : list (Document Vec)) d :
  d ∈ s → (∀ u, u ∈ us → conflicts u d = false) → d ∈ upsert_all us s.
Proof.
  revert s. induction us as [|u us IH]; intros s Hd Hfree; [done|].
  simpl. apply IH.
  - apply elem_of_upsert_other; [done|]. apply Hfree. by left.
  - intros u' Hu'. apply Hfree. by right.
Qed.


Lemma request_world {A} (res : result A) w :
  request res w = (answer_of (pending w) res,
                   mkWorld (documents w) (console w) (tail (pending w))).
Proof. reflexivity. Qed.

(** [serialize] writes neither a document nor a console line. *)
Lemma serialize_quiet env table r w res w' :
  serialize env table r w = (res, w') →
  documents w' = documents w ∧ console w' = console w.
Proof.
  unfold serialize.
  destruct (String.eqb table "account_snapshots").
  { unfold bind. rewrite request_world.
    destruct (answer_of _ _); unfold ret; intros; by simplify_eq. }
  destruct (String.eqb table "monthly_expense_snapshots");
    [unfold ret; intros; by simplify_eq|].
  destruct (String.eqb table "financial_kb"); unfold ret; intros; by simplify_eq.
Qed.

Lemma request_ok {A} (res : result A) w a w' :
  request res w = (OK a, w') →
  res = OK a ∧ documents w' = documents w ∧ console w' = console w.
Proof.
  rewrite request_world. intros [= Ha <-]. split; [|done].
  destruct (pending w) as [|[e|] o]; simpl in Ha; by simplify_eq.
Qed.

Lemma serialize_fact env table r w c w' :
  serialize env table r w = (OK c, w') → fact env table r = OK c.
Proof.
  unfold fact, serialize.
  destruct (String.eqb table "account_snapshots").
  - intros (acct & w1 & Hreq & Hret)%bind_inv_ok.
    apply request_ok in Hreq as (Hacct & _). unfold bind, request. simpl.
    rewrite Hacct. simpl. by injection Hret as -> _.
  - destruct (String.eqb table "monthly_expense_snapshots");
      [unfold ret; intros; by simplify_eq|].
    destruct (String.eqb table "financial_kb"); unfold ret; intros; by simplify_eq.
Qed.

(** *** A run that ends well has made the upserts of its plan *)

Lemma embedRow_ok env table r w w' :
  embedRow env table r w = (OK tt, w') →
  ∃ d, doc_of env table r = Some d ∧ documents w' = upsert d (documents w).
Proof.
  unfold embedRow.
  intros (c & w1 & Hser & Hrest)%bind_inv_ok.
  apply bind_inv_ok in Hrest as (vec & w2 & Hemb & Hrest).
  apply bind_inv_ok in Hrest as ([] & w3 & Hup & Hlog).
  destruct (serialize_quiet _ _ _ _ _ _ Hser) as [Hd1 _].
  apply serialize_fact in Hser.
  apply request_ok in Hemb as ([= <-] & Hd2 & _).
  unfold upsert_request in Hup.
  apply bind_inv_ok in Hup as ([] & w2' & Hreq & Hmod).
  apply request_ok in Hreq as (_ & Hd3 & _).
  unfold modify in Hmod. injection Hmod as <-.
  unfold console_log, modify in Hlog. injection Hlog as <-.
  eexists. split; [unfold doc_of; by rewrite Hser|].
  simpl. by rewrite Hd3, Hd2, Hd1.
Qed.

Lemma embedRows_ok env table rows w w' :
  for_each (embedRow env table) rows w = (OK tt, w') →
  documents w' = upsert_all (omap (doc_of env table) rows) (documents w)
  ∧ Forall (fun r => is_Some (doc_of env table r)) rows.
Proof.
  revert w. induction rows as [|r rows IH]; intros w.
  { intros [= <-]. by split. }
  simpl. intros ([] & w1 & Hrow & Hrest)%bind_inv_ok.
  apply embedRow_ok in Hrow as (d & Hdoc & Hd).
  destruct (IH _ Hrest) as [Hdocs Hall].
  rewrite Hdoc. simpl. rewrite <- Hd. split; [done|].
  apply Forall_cons. split; [by rewrite Hdoc|done].
Qed.

Lemma readTable_ok env table w rows w' :
  readTable env table w = (OK rows, w') →
  select_all env table = OK rows ∧ documents w' = documents w.
Proof.
  unfold readTable. intros ([] & w1 & Hlog & Hreq)%bind_inv_ok.
  unfold console_log, modify in Hlog. injection Hlog as <-.
  apply request_ok in Hreq as (Hsel & Hd & _). by split.
Qed.

Lemma embedTable_ok env table w w' :
  embedTable env table w = (OK tt, w') →
  documents w' = upsert_all (plan_table env table) (documents w)
  ∧ ∃ rows, select_all env table = OK rows
            ∧ Forall (fun r => is_Some (doc_of env table r)) rows.
Proof.
  unfold embedTable. intros (rows & w1 & Hread & Hrows)%bind_inv_ok.
  apply readTable_ok in Hread as [Hsel Hd].
  apply embedRows_ok in Hrows as [Hdocs Hall].
  unfold plan_table. rewrite Hsel, <- Hd. eauto.
Qed.

Lemma run_tables_ok env ts w w' :
  run_tables env ts w = (OK tt, w') →
  documents w' = upsert_all (plan env ts) (documents w)
  ∧ ∀ t, t ∈ ts → ∃ rows, select_all env t = OK rows
                          ∧ Forall (fun r => is_Some (doc_of env t r)) rows.
Proof.
  unfold run_tables. revert w. induction ts as [|t ts IH]; intros w.
  { intros [= <-]. split; [done|]. intros t Ht. by apply elem_of_nil in Ht. }
  simpl. intros ([] & w1 & Htable & Hrest)%bind_inv_ok.
  apply embedTable_ok in Htable as [Hd Hrows].
  destruct (IH _ Hrest) as [Hdocs Hall].
  split; [by rewrite upsert_all_app, <- Hd|].
  intros t' [->|Ht']%elem_of_cons; [done|by apply Hall].
Qed.

Lemma run_ok env w w' :
  run env w = (OK tt, w') →
  documents w' = upsert_all (plan env TABLES_TO_EMBED) (documents w)
  ∧ ∀ t, t ∈ TABLES_TO_EMBED →
         ∃ rows, select_all env t = OK rows
                 ∧ Forall (fun r => is_Some (doc_of env t r)) rows.
Proof.
  unfold run. intros ([] & w1 & Htables & Hlog)%bind_inv_ok.
  unfold console_log, modify in Hlog. injection Hlog as <-.
  by apply run_tables_ok in Htables.
Qed.

(** *** The keys of a plan *)

Lemma select_all_tables env table rows :
  select_all env table = OK rows ↔ tables env !! table = Some rows.
Proof.
  unfold select_all. destruct (tables env !! table); split; intros; by simplify_eq.
Qed.

Lemma doc_of_key env table r d :
  doc_of env table r = Some d →
  doc_key d = match column (get "id" r) with
              | Some i => Some (table, i)
              | None => None
              end.
Proof.
  unfold doc_of. destruct (fact env table r); [|done]. by intros [= <-].
Qed.

Lemma keys_of_rows env table rows k :
  k ∈ keys (omap (doc_of env table) rows) →
  k.1 = table ∧ Some k.2 ∈ List.map (fun r => column (get "id" r)) rows.
Proof.
  unfold keys. intros (d & (r & Hr & Hdoc)%list_elem_of_omap & Hk)%list_elem_of_omap.
  rewrite (doc_of_key _ _ _ _ Hdoc) in Hk.
  destruct (column (get "id" r)) as [i|] eqn:Hid; [|done]. injection Hk as <-.
  split; [done|]. simpl. rewrite <- Hid.
  apply list_elem_of_In, (List.in_map (fun r => column (get "id" r))).
  by apply list_elem_of_In.
Qed.

Lemma NoDup_keys_rows env table rows :
  NoDup (List.map (fun r => column (get "id" r)) rows) →
  NoDup (keys (omap (doc_of env table) rows)).
Proof.
  induction rows as [|r rows IH]; [intros; apply NoDup_nil_2|].
  simpl. intros [Hfresh Hnd]%NoDup_cons.
  destruct (doc_of env table r) as [d|] eqn:Hdoc; [|by apply IH].
  unfold keys. simpl. rewrite (doc_of_key _ _ _ _ Hdoc).
  destruct (column (get "id" r)) as [i|]; [|by apply IH].
  apply NoDup_cons. split; [|by apply IH].
  intros [_ Hin]%keys_of_rows. by apply Hfresh.
Qed.

Lemma keys_of_plan_table env table k :
  k ∈ keys (plan_table env table) → k.1 = table.
Proof.
  unfold plan_table. destruct (select_all env table) as [rows|e].
  - by intros []%keys_of_rows.
  - intros Hk. by apply elem_of_nil in Hk.
Qed.

Lemma NoDup_keys_plan env ts :
  well_keyed env → NoDup ts → NoDup (keys (plan env ts)).
Proof.
  intros Hkeyed. induction ts as [|t ts IH]; [intros; apply NoDup_nil_2|].
  intros [Hfresh Hnd]%NoDup_cons. unfold plan, keys. simpl. rewrite omap_app.
  apply NoDup_app. split; [|split; [|by apply IH]].
  - unfold plan_table. destruct (select_all env t) as [rows|e] eqn:Hsel;
      [|apply NoDup_nil_2].
    apply NoDup_keys_rows. apply select_all_tables in Hsel. by apply (Hkeyed t rows).
  - intros k Hk%keys_of_plan_table Hk'.
    assert (Hin : ∀ ts', k ∈ keys (plan env ts') → k.1 ∈ ts').
    { clear. induction ts' as [|t' ts' IH'].
      - intros Hk. by apply elem_of_nil in Hk.
      - unfold plan, keys. simpl. rewrite omap_app.
        intros [Hk%keys_of_plan_table|Hk]%elem_of_app; [rewrite Hk; by left|].
        right. by apply IH'. }
    apply Hfresh. rewrite <- Hk. by apply Hin.
Qed.

Lemma plan_keyed env ts :
  well_keyed env → Forall (fun u => is_Some (doc_key u)) (plan env ts).
Proof.
  intros Hkeyed. apply Forall_forall. intros d Hd.
  apply list_elem_of_In, List.in_flat_map in Hd as (t & _ & Hd).
  unfold plan_table in Hd. destruct (select_all env t) as [rows|e] eqn:Hsel; [|done].
  apply list_elem_of_In, list_elem_of_omap in Hd as (r & Hr & Hdoc).
  rewrite (doc_of_key _ _ _ _ Hdoc).
  apply select_all_tables in Hsel. destruct (Hkeyed t rows Hsel) as [_ Hids].
  specialize (Hids r Hr). by destruct (column (get "id" r)).
Qed.

Lemma NoDup_TABLES_TO_EMBED : NoDup TABLES_TO_EMBED.
Proof. apply (bool_decide_unpack _). vm_compute. exact I. Qed.



(** [serialize] makes one request at most. *)
Lemma serialize_requests env table r w res w' :
  serialize env table r w = (res, w') →
  ∃ n, n ≤ 1 ∧ pending w' = drop n (pending w).
Proof.
  unfold serialize.
  destruct (String.eqb table "account_snapshots").
  { unfold bind. rewrite request_world.
    destruct (answer_of _ _); unfold ret; intros [= _ <-]; exists 1;
      (split; [lia|]); simpl; by destruct (pending w). }
  destruct (String.eqb table "monthly_expense_snapshots");
    [unfold ret; intros [= _ <-]; exists 0; split; [lia|done]|].
  destruct (String.eqb table "financial_kb");
    unfold ret; intros [= _ <-]; exists 0; (split; [lia|done]).
Qed.

(** A row whose serialization or embedding throws is not upserted and gets
    no progress line; the row has made two requests at most. *)
Lemma embedRow_throws_before_upsert env table r w e :
  ((serialize env table r w).1 = Err e
   ∨ ∃ c w', serialize env table r w = (OK c, w') ∧ (makeEmbedding env c w').1 = Err e) →
  ∃ w', embedRow env table r w = (Err e, w')
        ∧ documents w' = documents w ∧ console w' = console w
        ∧ ∃ n, n ≤ 2 ∧ pending w' = drop n (pending w).
Proof.
  intros [Hser | (c & w1 & Hser & Hemb)]; unfold embedRow.
  - destruct (serialize env table r w) as [res w1] eqn:Hrun. simpl in Hser. subst res.
    exists w1. split; [by apply bind_err|].
    destruct (serialize_quiet _ _ _ _ _ _ Hrun) as [Hd Hc].
    destruct (serialize_requests _ _ _ _ _ _ Hrun) as (n & Hn & Hp).
    repeat split; try done. exists n. split; [lia|done].
  - rewrite (bind_ok _ _ _ _ _ Hser).
    destruct (serialize_quiet _ _ _ _ _ _ Hser) as [Hd Hc].
    destruct (serialize_requests _ _ _ _ _ _ Hser) as (n & Hn & Hp).
    destruct (makeEmbedding env c w1) as [res w2] eqn:Hrun. simpl in Hemb. subst res.
    exists w2. split; [by apply bind_err|].
    unfold makeEmbedding in Hrun. rewrite request_world in Hrun.
    injection Hrun as _ <-. simpl. rewrite Hd, Hc. repeat split.
    exists (n + 1). split; [lia|]. rewrite Hp, <- drop_drop.
    by destruct (drop n (pending w)).
Qed.

(** C7. Fail-fast: when the tables before [t] and the rows of [t] before [r]
    have been processed and the Serializer or the Embedder throws on [r],
    the whole run throws that error there: the store and the console are
    left exactly as they were when [r] was reached and no request is made
    beyond those of [r] itself, whatever rows follow [r] in [t] and whatever
    tables follow [t] in the list. *)
Theorem run_fails_fast env pre t post rows_pre r rows_post w0 w1 w2 w3 e :
  TABLES_TO_EMBED = pre ++ t :: post →
  run_tables env pre w0 = (OK tt, w1) →
  readTable env t w1 = (OK (rows_pre ++ r :: rows_post), w2) →
  for_each (embedRow env t) rows_pre w2 = (OK tt, w3) →
  ((serialize env t r w3).1 = Err e
   ∨ ∃ c w', serialize env t r w3 = (OK c, w') ∧ (makeEmbedding env c w').1 = Err e) →
  ∃ w4, run env w0 = (Err e, w4)
        ∧ embedTable env t w1 = (Err e, w4)
        ∧ documents w4 = documents w3
        ∧ console w4 = console w3
        ∧ ∃ n, n ≤ 2 ∧ pending w4 = drop n (pending w3).
Proof.
  intros Htables Hpre Hread Hrows Hrow.
  destruct (embedRow_throws_before_upsert env t r w3 e Hrow)
    as (w4 & Hthrow & Hd & Hc & Hp).
  assert (Htable : embedTable env t w1 = (Err e, w4)).
  { unfold embedTable. rewrite (bind_ok _ _ _ _ _ Hread).
    by apply for_each_stops with (w' := w3). }
  exists w4. split; [|done].
  unfold run. apply bind_err. unfold run_tables in *. rewrite Htables.
  by apply for_each_stops with (w' := w1).
Qed.


End WithEmbedding.
End IndexerFacts.


(** ** Properties of the context assembler and of the orchestrator *)

Module QueryBotFacts.
Import Js Effect QueryBot.
Local Open Scope js_scope.






Lemma get_select_columns k cols (r : row) :
  existsb (String.eqb k) cols = true →
  get k (Indexer.select_columns cols r) = get k r.
Proof.
  intros Hk. induction r as [|[k' v] r IH]; [done|].
  simpl. destruct (String.eqb_spec k k') as [<-|Hne].
  - rewrite Hk. simpl. by rewrite String.eqb_refl.
  - destruct (existsb (String.eqb k') cols); [|done].
    simpl. by destruct (String.eqb_spec k k').
Qed.

Lemma kb_line_select_columns (d : row) :
  kb_line (Indexer.select_columns ["title"; "content"] d) = kb_line d.
Proof. unfold kb_line. by rewrite !get_select_columns. Qed.

Section WithEmbedding.
Context {Vec : Type}.
Implicit Types (env : Env Vec) (w : World).

(** The three requests of [fetchContext], in order: the glossary read, the
    embedding of the question, the similarity search. *)
Lemma fetchContext_cases env q count w :
  fetchContext env q count w =
  match pending w with
  | Some e :: o => (Err e, mkWorld (history_file w) o)
  | _ =>
      match tail (pending w) with
      | Some e :: o => (Err e, mkWorld (history_file w) o)
      | _ =>
          match tail (tail (pending w)) with
          | Some e :: o => (Err e, mkWorld (history_file w) o)
          | _ => (OK (context_of env q count),
                  mkWorld (history_file w) (tail (tail (tail (pending w)))))
          end
      end
  end.
Proof.
  assert (Hkb : List.map kb_line
                  (List.map (Indexer.select_columns ["title"; "content"]) (financial_kb env))
                = List.map kb_line (financial_kb env)).
  { rewrite List.map_map. apply List.map_ext. intros d. apply kb_line_select_columns. }
  destruct w as [f o]. unfold fetchContext, embed, request, bind, ret. simpl.
  destruct o as [|[e|] [|[e'|] [|[e''|] o]]]; simpl; try reflexivity;
    unfold context_of, retrieved; rewrite Hkb; reflexivity.
Qed.

Lemma fetchContext_keeps_file env q count w r w' :
  fetchContext env q count w = (r, w') → history_file w' = history_file w.
Proof.
  rewrite fetchContext_cases. destruct w as [f o]. simpl.
  destruct o as [|[e|] [|[e'|] [|[e''|] o]]]; simpl; intros; by simplify_eq.
Qed.


Lemma answer_cases env q w :
  answer env q w =
  match fetchContext env q 50 w with
  | (Err e, w1) => (Err e, w1)
  | (OK c, w1) =>
      let history := loadHistory (USER_ID env) (history_file w1) in
      match request (OK (chat_model env (messages_of history c q))) w1 with
      | (Err e, w2) => (Err e, w2)
      | (OK resp, w2) =>
          match saveHistory (USER_ID env)
                  (history ++ [ mkTurn "user" q; mkTurn "assistant" (trim resp) ])
                  (history_file w2) with
          | OK f => (OK (trim resp), mkWorld f (pending w2))
          | Err e => (Err e, w2)
          end
      end
  end.
Proof.
  unfold answer, bind, read_history, write_history, ret. simpl.
  destruct (fetchContext env q 50 w) as [[c|e] w1]; [|done]. simpl.
  destruct (answer_of (pending w1) _) as [resp|e]; [|done].
  by destruct (saveHistory _ _ (history_file w1)).
Qed.

(** C5, as the code has it. Once the model has produced a reply, the
    outcome of [answer] is the outcome of the history save: when the save
    throws, [answer] throws that error, the reply is not returned and the
    file is left as it was; the reply, trimmed, is returned only when the
    save succeeds. *)
Theorem answer_follows_history_save env q w c w1 resp w2 :
  fetchContext env q 50 w = (OK c, w1) →
  request (OK (chat_model env
                 (messages_of (loadHistory (USER_ID env) (history_file w1)) c q))) w1
    = (OK resp, w2) →
  let turns := loadHistory (USER_ID env) (history_file w1)
               ++ [ mkTurn "user" q; mkTurn "assistant" (trim resp) ] in
  (∀ e, saveHistory (USER_ID env) turns (history_file w2) = Err e →
        answer env q w = (Err e, w2))
  ∧ (∀ f, saveHistory (USER_ID env) turns (history_file w2) = OK f →
        answer env q w = (OK (trim resp), mkWorld f (pending w2))).
Proof.
  intros Hctx Hchat turns. rewrite answer_cases, Hctx. cbv beta iota zeta.
  rewrite Hchat. fold turns. split; intros ? Hsave; by rewrite Hsave.
Qed.

Lemma trim_REFUSAL : trim REFUSAL = REFUSAL.
Proof. vm_compute. reflexivity. Qed.

Lemma policyPrompt_demands_REFUSAL :
  occurs_in ("If information is missing, respond exactly: " +:+ dq +:+ REFUSAL +:+ dq)
            policyPrompt.
Proof.
  exists ("You are a senior financial analyst assistant, expert in accounting. "
          +:+ "For **financial** questions, you may ONLY use the supplied context. ").
  eexists. vm_compute. reflexivity.
Qed.

(** C9, as the code has it. The answer is the reply of the chat model,
    trimmed and otherwise untouched, to a message sequence made of the prior
    turns, the policy message that demands the literal refusal sentence, the
    context block and the question. With an empty glossary and no retrieved
    document the context block is the two bare section headers; the answer
    is the refusal sentence when the model replies with it, and the code
    checks nothing about the reply. *)
Theorem answer_is_trimmed_model_reply env q w a w' :
  answer env q w = (OK a, w') →
  ∃ c w1,
    fetchContext env q 50 w = (OK c, w1)
    ∧ a = trim (chat_model env (messages_of (loadHistory (USER_ID env) (history_file w)) c q))
    ∧ In (mkTurn "system" policyPrompt)
         (messages_of (loadHistory (USER_ID env) (history_file w)) c q)
    ∧ occurs_in ("If information is missing, respond exactly: " +:+ dq +:+ REFUSAL +:+ dq)
                policyPrompt
    ∧ (financial_kb env = [] → (∀ u v t n, match_documents env u v t n = []) →
         c = "--- FINANCIAL FORMULAS ---" +:+ nl +:+ nl +:+ nl
             +:+ "--- USER DATA ROWS ---" +:+ nl)
    ∧ (chat_model env (messages_of (loadHistory (USER_ID env) (history_file w)) c q)
         = REFUSAL → a = REFUSAL).
Proof.
  rewrite answer_cases.
  destruct (fetchContext env q 50 w) as [[c|e] w1] eqn:Hctx; [|done].
  cbv beta iota zeta.
  pose proof (fetchContext_keeps_file _ _ _ _ _ _ Hctx) as Hfile. rewrite Hfile.
  match goal with
  | |- context [request ?r w1] =>
      destruct (request r w1) as [[resp|e] w2] eqn:Hchat; [|done]
  end.
  destruct (saveHistory _ _ (history_file w2)) as [f|e]; [|done].
  intros [= <- <-].
  assert (Hresp : resp = chat_model env
                    (messages_of (loadHistory (USER_ID env) (history_file w)) c q)).
  { unfold request in Hchat. destruct (pending w1) as [|[e|] o]; simpl in Hchat;
      by simplify_eq. }
  exists c, w1. split; [done|]. split; [by rewrite Hresp|].
  split; [unfold messages_of; apply List.in_or_app; right; by left|].
  split; [apply policyPrompt_demands_REFUSAL|]. split.
  - intros Hkb Hnone.
    assert (Hc : c = context_of env q 50).
    { rewrite fetchContext_cases in Hctx. destruct w as [f0 p]. simpl in Hctx.
      destruct p as [|[e|] [|[e'|] [|[e''|] o]]]; simpl in Hctx; by simplify_eq. }
    rewrite Hc. unfold context_of, retrieved. rewrite Hkb, Hnone. reflexivity.
  - intros Hrefuse. rewrite Hresp, Hrefuse. apply trim_REFUSAL.
Qed.

End WithEmbedding.
End QueryBotFacts.

(** ** Properties of the history store *)

Module HistoryFacts.
Import Js Effect QueryBot.



Lemma slice_last_length {A} (n : nat) (l : list A) :
  length (slice_last n l) = Nat.min n (length l).
Proof. unfold slice_last. rewrite length_drop. lia. Qed.

Lemma loadHistory_object (m : gmap string (list ChatTurn)) uid :
  loadHistory uid (Holds (PObject m)) =
  match m !! uid with
  | Some turns => slice_last HISTORY_LIMIT turns
  | None => []
  end.
Proof. unfold loadHistory. simpl. by destruct (m !! uid). Qed.

Lemma saveHistory_object (m : gmap string (list ChatTurn)) uid h :
  saveHistory uid h (Holds (PObject m)) =
  OK (Holds (PObject (<[uid := slice_last HISTORY_LIMIT h]> m))).
Proof. reflexivity. Qed.




(** C8. Frame: a save over a persisted multi-user state replaces the entry
    of the saved scope only; every other scope's persisted history, and what
    a load returns for it, is what it was before the save. *)
Theorem saveHistory_other_scopes_unchanged
    (m : gmap string (list ChatTurn)) uid (turns : list ChatTurn) :
  ∃ m', saveHistory uid turns (Holds (PObject m)) = OK (Holds (PObject m'))
        ∧ m' !! uid = Some (slice_last HISTORY_LIMIT turns)
        ∧ ∀ other, other ≠ uid →
            m' !! other = m !! other
            ∧ loadHistory other (Holds (PObject m')) = loadHistory other (Holds (PObject m)).
Proof.
  exists (<[uid := slice_last HISTORY_LIMIT turns]> m).
  split; [apply saveHistory_object|]. split; [apply lookup_insert_eq|].
  intros other Hne.
  assert (Hl : <[uid := slice_last HISTORY_LIMIT turns]> m !! other = m !! other)
    by (apply lookup_insert_ne; congruence).
  split; [exact Hl|]. by rewrite !loadHistory_object, Hl.
Qed.


End HistoryFacts.

(** ** The statements at concrete worlds *)

Module IndexerWitnesses.
Import Js Effect Indexer IndexerFacts Examples.

Lemma serialize_scenario_A_witness :
  (serialize env_A "account_snapshots" snapshot_row world_0).1 =
    OK ("Account Balance | account_name=" +:+ dq +:+ "Main Checking" +:+ dq
        +:+ " | account_type=" +:+ dq +:+ "cash" +:+ dq
        +:+ " | as_of=" +:+ dq +:+ "2025-03-31" +:+ dq +:+ " | cash_balance=15900")
  ∧ (serialize env_A "account_snapshots" snapshot_row world_0).1 =
    (serialize env_A "account_snapshots" snapshot_row (mkWorld [] ["earlier line"] [])).1.
Proof.
  split.
  - apply (proj1 serialize_scenario_A_and_deterministic env_A world_0 snapshot_row
             [("name", JStr "Main Checking"); ("type", JStr "cash")]); reflexivity.
  - apply (proj2 serialize_scenario_A_and_deterministic); reflexivity.
Defined.

Lemma source_tables_well_keyed snapshot :
  column (get "id" snapshot) ≠ None →
  well_keyed (mkEnv (list_to_map (source_tables snapshot)) toy_model).
Proof.
  intros Hid t rows Hlookup. cbn [tables] in Hlookup.
  apply elem_of_list_to_map_2 in Hlookup. unfold source_tables in Hlookup.
  repeat (apply elem_of_cons in Hlookup as [Hlookup|Hlookup];
          [injection Hlookup as -> ->|]);
    try (by apply elem_of_nil in Hlookup);
    (split; [|apply Forall_forall; repeat constructor; done]);
    apply (bool_decide_unpack _); vm_compute; exact I.
Qed.

Lemma env_A_well_keyed : well_keyed env_A.
Proof. by apply source_tables_well_keyed. Qed.



(** The embedding of the second category fails: the run stops there, with
    the account and the first category stored and nothing after them. *)
Lemma run_fails_fast_witness :
  ∃ w4, run env_A world_outage = (Err (UpstreamError "503 Service Unavailable"), w4)
        ∧ List.map source_id (documents w4) = [Some (JStr "a1"); Some (JStr "c1")]
        ∧ console w4 = [ "⏳ Embedding profiles..."; "⏳ Embedding accounts...";
                         "📝  accounts a1"; "⏳ Embedding categories...";
                         "📝  categories c1" ].
Proof.
  destruct (run_fails_fast env_A ["profiles"; "accounts"] "categories"
              (drop 3 TABLES_TO_EMBED)
              (take 1 categories_rows) (categories_rows !!! 1%nat) (drop 2 categories_rows)
              world_outage
              (run_tables env_A ["profiles"; "accounts"] world_outage).2
              (readTable env_A "categories"
                 (run_tables env_A ["profiles"; "accounts"] world_outage).2).2
              (for_each (embedRow env_A "categories") (take 1 categories_rows)
                 (readTable env_A "categories"
                    (run_tables env_A ["profiles"; "accounts"] world_outage).2).2).2
              (UpstreamError "503 Service Unavailable"))
    as (w4 & Hrun & _ & Hdocs & Hconsole & _).
  - reflexivity.
  - vm_compute. reflexivity.
  - vm_compute. reflexivity.
  - vm_compute. reflexivity.
  - right. eexists _, _. split; vm_compute; reflexivity.
  - exists w4. split; [exact Hrun|]. rewrite Hdocs, Hconsole. split; vm_compute; reflexivity.
Defined.



End IndexerWitnesses.

Module HistoryWitnesses.
Import Js Effect QueryBot HistoryFacts Examples.


Lemma saveHistory_other_scopes_unchanged_witness :
  ∃ m', saveHistory "u1" twelve_turns (Holds (PObject two_users)) = OK (Holds (PObject m'))
        ∧ m' !! "u2" = two_users !! "u2".
Proof.
  destruct (saveHistory_other_scopes_unchanged two_users "u1" twelve_turns)
    as (m' & Hsave & _ & Hframe).
  exists m'. split; [exact Hsave|].
  apply (Hframe "u2"). discriminate.
Defined.


End HistoryWitnesses.

Module QueryBotWitnesses.
Import Js Effect QueryBot QueryBotFacts Examples.


(** The history file holds [null]: the model replies, the save throws. *)
Lemma answer_follows_history_save_witness :
  answer env_bot question (mkWorld (Holds PNull) [])
  = (Err (TypeError "Cannot set properties of null"), mkWorld (Holds PNull) []).
Proof.
  apply (proj1 (answer_follows_history_save env_bot question (mkWorld (Holds PNull) [])
                  (context_of env_bot question 50) (mkWorld (Holds PNull) [])
                  (eager_model []) (mkWorld (Holds PNull) [])
                  ltac:(vm_compute; reflexivity) ltac:(vm_compute; reflexivity))).
  vm_compute. reflexivity.
Defined.

(** C5 as stated fails: the model has replied, and the caller gets no
    answer because the save throws. *)
Lemma answer_lost_on_save_failure_counterexample :
  ¬ (∀ (env : Env (list Z)) q w c w1 resp w2,
       fetchContext env q 50 w = (OK c, w1) →
       request (OK (chat_model env
                      (messages_of (loadHistory (USER_ID env) (history_file w1)) c q))) w1
         = (OK resp, w2) →
       (answer env q w).1 = OK (trim resp)).
Proof.
  intros Hkeeps.
  specialize (Hkeeps env_bot question (mkWorld (Holds PNull) [])
                (context_of env_bot question 50) (mkWorld (Holds PNull) [])
                (eager_model []) (mkWorld (Holds PNull) [])).
  assert (Hans : (answer env_bot question (mkWorld (Holds PNull) [])).1
                 = OK (trim (eager_model [])));
    [apply Hkeeps; vm_compute; reflexivity|].
  vm_compute in Hans. discriminate Hans.
Qed.

(** An empty glossary, no matching document, and a model that answers with
    a figure. *)
Lemma answer_is_trimmed_model_reply_witness :
  ∃ c w1, fetchContext env_empty question 50 (mkWorld Missing []) = (OK c, w1)
          ∧ "Your cash balance is 42." = trim (eager_model [])
          ∧ c = "--- FINANCIAL FORMULAS ---" +:+ nl +:+ nl +:+ nl
                +:+ "--- USER DATA ROWS ---" +:+ nl.
Proof.
  destruct (answer_is_trimmed_model_reply env_empty question (mkWorld Missing [])
              "Your cash balance is 42."
              (answer env_empty question (mkWorld Missing [])).2)
    as (c & w1 & Hctx & Ha & _ & _ & Hempty & _); [vm_compute; reflexivity|].
  exists c, w1. split; [exact Hctx|]. split; [exact Ha|].
  apply Hempty; reflexivity.
Defined.

(** C9 as stated fails: with an empty glossary and no matching document the
    answer is whatever the model replied. *)
Lemma answer_refusal_counterexample :
  ¬ (∀ (env : Env (list Z)) q w a w',
       financial_kb env = [] →
       (∀ u v t n, match_documents env u v t n = []) →
       answer env q w = (OK a, w') →
       a = REFUSAL).
Proof.
  intros Hrefuses.
  specialize (Hrefuses env_empty question (mkWorld Missing [])
                "Your cash balance is 42."
                (answer env_empty question (mkWorld Missing [])).2
                eq_refl (fun _ _ _ _ => eq_refl)).
  assert (Ha : "Your cash balance is 42." = REFUSAL);
    [apply Hrefuses; vm_compute; reflexivity|].
  discriminate Ha.
Qed.

End QueryBotWitnesses.

(** ** Further properties of the history store *)

Module HistoryLaws.
Import Js Effect QueryBot HistoryFacts.

Lemma slice_last_suffix {A} (n : nat) (l : list A) : slice_last n l `suffix_of` l.
Proof. unfold slice_last. apply suffix_drop. Qed.

Lemma loadHistory_length uid f : length (loadHistory uid f) ≤ HISTORY_LIMIT.
Proof.
  destruct f as [| |[|m]]; try (simpl; lia).
  rewrite loadHistory_object. destruct (m !! uid); [|simpl; lia].
  rewrite slice_last_length. lia.
Qed.


(** X1. A load never returns more than [HISTORY_LIMIT] turns, and what it returns
    for a user that has an entry is the tail end of that entry, in order. *)
Theorem loadHistory_bounded_suffix uid f :
  length (loadHistory uid f) ≤ HISTORY_LIMIT
  ∧ ∀ m turns, f = Holds (PObject m) → m !! uid = Some turns →
      loadHistory uid f `suffix_of` turns
      ∧ length (loadHistory uid f) = Nat.min HISTORY_LIMIT (length turns).
Proof.
  split; [apply loadHistory_length|].
  intros m turns -> Hm. rewrite loadHistory_object, Hm.
  split; [apply slice_last_suffix|apply slice_last_length].
Qed.

(** X2. A load never throws: a missing file, a file that is not JSON, a file
    that holds [null] and a state without an entry for the user all give the
    empty history. *)
Theorem loadHistory_degrades_to_empty uid f :
  f = Missing ∨ f = Unparseable ∨ f = Holds PNull
  ∨ (∃ m, f = Holds (PObject m) ∧ m !! uid = None) →
  loadHistory uid f = [].
Proof.
  intros [-> | [-> | [-> | (m & -> & Hm)]]]; try reflexivity.
  by rewrite loadHistory_object, Hm.
Qed.


(** X4. Two saves for one user: the second one alone decides the state. *)
Theorem saveHistory_last_write_wins uid (h1 h2 : list ChatTurn) f f1 :
  saveHistory uid h1 f = OK f1 →
  saveHistory uid h2 f1 = saveHistory uid h2 f.
Proof.
  destruct f as [| |[|m]]; try done; intros [= <-];
    rewrite ?saveHistory_object; unfold saveHistory; simpl;
    by rewrite ?insert_insert_eq, ?insert_empty.
Qed.

(** X5. Saves for two different users give the same state in either order. *)
Theorem saveHistory_commutes u1 u2 (h1 h2 : list ChatTurn) f f1 f2 :
  u1 ≠ u2 →
  saveHistory u1 h1 f = OK f1 →
  saveHistory u2 h2 f = OK f2 →
  saveHistory u2 h2 f1 = saveHistory u1 h1 f2
  ∧ ∃ f', saveHistory u2 h2 f1 = OK f'.
Proof.
  intros Hne.
  destruct f as [| |[|m]]; try done; intros [= <-] [= <-]; simpl;
    unfold saveHistory; simpl; (split; [|eauto]);
    do 3 f_equal; apply insert_insert_ne; congruence.
Qed.


(** X7. Every stored history stays within [HISTORY_LIMIT] turns across a save. *)
Theorem saveHistory_keeps_histories_bounded
    (m m' : gmap string (list ChatTurn)) uid (h : list ChatTurn) :
  (∀ u turns, m !! u = Some turns → length turns ≤ HISTORY_LIMIT) →
  saveHistory uid h (Holds (PObject m)) = OK (Holds (PObject m')) →
  ∀ u turns, m' !! u = Some turns → length turns ≤ HISTORY_LIMIT.
Proof.
  intros Hbound [= <-] u turns.
  destruct (decide (u = uid)) as [->|Hne].
  - rewrite lookup_insert_eq. intros [= <-]. rewrite slice_last_length. lia.
  - rewrite lookup_insert_ne by congruence. apply Hbound.
Qed.

End HistoryLaws.

(** ** Further properties of the orchestrator *)

Module OrchestratorLaws.
Import Js Effect QueryBot QueryBotFacts HistoryFacts HistoryLaws.
Local Open Scope js_scope.


Section WithEmbedding.
Context {Vec : Type}.
Implicit Types (env : Env Vec) (w : World).

Lemma request_keeps_file {A} (res : result A) w r w' :
  request res w = (r, w') →
  history_file w' = history_file w ∧ pending w' = drop 1 (pending w).
Proof. unfold request. intros [= _ <-]. simpl. by destruct (pending w). Qed.


(** X8. The prompt is bounded: whatever the history file holds, the model is
    sent at most [HISTORY_LIMIT] prior turns followed by three messages, the
    last of which is the question. *)
Theorem messages_bounded uid f (context q : string) :
  length (messages_of (loadHistory uid f) context q) ≤ HISTORY_LIMIT + 3
  ∧ last (messages_of (loadHistory uid f) context q) = Some (mkTurn "user" q)
  ∧ [ mkTurn "system" policyPrompt; mkTurn "system" context; mkTurn "user" q ]
      `suffix_of` messages_of (loadHistory uid f) context q.
Proof.
  unfold messages_of. rewrite length_app. simpl.
  pose proof (loadHistory_length uid f) as Hlen. unfold HISTORY_LIMIT in *.
  split; [lia|]. split; [|by apply suffix_app_r].
  by rewrite last_app.
Qed.



Lemma answer_error_file env q w e w' :
  answer env q w = (Err e, w') → history_file w' = history_file w.
Proof.
  rewrite answer_cases.
  destruct (fetchContext env q 50 w) as [[c|e0] w1] eqn:Hctx.
  - cbv beta iota zeta.
    pose proof (fetchContext_keeps_file _ _ _ _ _ _ Hctx) as Hfile.
    match goal with
    | |- context [request ?r w1] =>
        destruct (request r w1) as [[resp|e1] w2] eqn:Hchat
    end.
    + destruct (request_keeps_file _ _ _ _ Hchat) as [Hfile2 _].
      destruct (saveHistory _ _ (history_file w2)) as [f|e2]; [done|].
      intros [= _ <-]. congruence.
    + destruct (request_keeps_file _ _ _ _ Hchat) as [Hfile2 _].
      intros [= _ <-]. congruence.
  - intros [= _ <-]. by eapply fetchContext_keeps_file.
Qed.

(** X10. A failed answer persists nothing: whichever step throws, the history
    file is left as it was, and so is what a load returns for any user. *)
Theorem answer_failure_keeps_history env q w e w' :
  answer env q w = (Err e, w') →
  history_file w' = history_file w
  ∧ ∀ uid, loadHistory uid (history_file w') = loadHistory uid (history_file w).
Proof.
  intros Hrun. pose proof (answer_error_file _ _ _ _ _ Hrun) as Hfile.
  split; [done|]. intros uid. by rewrite Hfile.
Qed.


(** X12. An answer for one user leaves every other user's history as it was,
    whether it succeeds or throws. *)
Theorem answer_other_users_unchanged env q w r w' other :
  answer env q w = (r, w') →
  other ≠ USER_ID env →
  loadHistory other (history_file w') = loadHistory other (history_file w).
Proof.
  intros Hrun Hne. destruct r as [a|e].
  - revert Hrun. rewrite answer_cases.
    destruct (fetchContext env q 50 w) as [[c|e] w1] eqn:Hctx; [|done].
    cbv beta iota zeta.
    pose proof (fetchContext_keeps_file _ _ _ _ _ _ Hctx) as Hfile.
    match goal with
    | |- context [request ?r w1] =>
        destruct (request r w1) as [[resp|e] w2] eqn:Hchat; [|done]
    end.
    destruct (request_keeps_file _ _ _ _ Hchat) as [Hfile2 _].
    destruct (saveHistory _ _ (history_file w2)) as [f|e] eqn:Hsave; [|done].
    intros [= _ <-]. simpl. rewrite <- Hfile, <- Hfile2.
    destruct (history_file w2) as [| |[|m]]; try done; injection Hsave as <-;
      rewrite !loadHistory_object; by rewrite lookup_insert_ne.
  - by rewrite (answer_error_file _ _ _ _ _ Hrun).
Qed.

End WithEmbedding.
End OrchestratorLaws.


(** ** Further properties of the Indexer *)

Module IndexerLaws.
Import Js Effect EffectFacts Indexer IndexerFacts QueryBotFacts Scripts.
Local Open Scope js_scope.

Lemma progress_line_not_DONE line : progress_line line → line ≠ DONE.
Proof. intros [rest [-> | ->]]; unfold DONE; intros H; cbv in H; discriminate H. Qed.

Section WithEmbedding.
Context {Vec : Type}.
Implicit Types (env : Env Vec) (w : World Vec) (d u v x y : Document Vec).

(** X13. Only the balance snapshots can fail to serialize: for every other table
    [serialize] returns a fact without a request and leaves the world as it
    is. *)
Theorem serialize_needs_no_lookup env table r w :
  table ≠ "account_snapshots" →
  ∃ c, serialize env table r w = (OK c, w).
Proof.
  intros Hne. unfold serialize.
  destruct (String.eqb_spec table "account_snapshots") as [->|_]; [done|].
  destruct (String.eqb table "monthly_expense_snapshots"); [eexists; reflexivity|].
  destruct (String.eqb table "financial_kb"); eexists; reflexivity.
Qed.




(** *** Every outcome of a run *)

Lemma answer_of_ok_inv {A} (o : oracle) (res : result A) a :
  answer_of o res = OK a → res = OK a.
Proof. destruct o as [|[e|] o]; simpl; congruence. Qed.

Lemma answer_of_ok {A} (o : oracle) (a b : A) : answer_of o (OK a) = OK b → a = b.
Proof. intros H%answer_of_ok_inv. congruence. Qed.

(** A row either throws and leaves the store and the console as they were,
    or is upserted and logged. *)
Lemma embedRow_cases env t r w res w' :
  embedRow env t r w = (res, w') →
  (∃ e, res = Err e ∧ documents w' = documents w ∧ console w' = console w)
  ∨ (res = OK tt
     ∧ ∃ d, doc_of env t r = Some d
            ∧ documents w' = upsert d (documents w)
            ∧ console w' = console w ++ ["📝  " +:+ t +:+ " " +:+ template (get "id" r)]).
Proof.
  unfold embedRow, bind.
  destruct (serialize env t r w) as [[c|e] w1] eqn:Hser.
  2: { intros [= <- <-]. left. exists e. split; [done|]. by eapply serialize_quiet. }
  destruct (serialize_quiet _ _ _ _ _ _ Hser) as [Hd1 Hc1].
  apply serialize_fact in Hser.
  unfold makeEmbedding. rewrite request_world.
  destruct (answer_of (pending w1) (OK (embed_model env c))) as [vec|e] eqn:Hemb.
  2: { intros [= <- <-]. left. exists e. simpl. by rewrite Hd1, Hc1. }
  apply answer_of_ok in Hemb as <-.
  unfold upsert_request, bind. rewrite request_world. simpl.
  destruct (answer_of (tail (pending w1)) (OK ())) as [[]|e].
  2: { intros [= <- <-]. left. exists e. simpl. by rewrite Hd1, Hc1. }
  unfold modify, console_log, modify. simpl. intros [= <- <-]. right.
  split; [done|]. eexists. split; [unfold doc_of; by rewrite Hser|].
  simpl. by rewrite Hd1, Hc1.
Qed.

Lemma readTable_cases env t w res w' :
  readTable env t w = (res, w') →
  documents w' = documents w
  ∧ console w' = console w ++ ["⏳ Embedding " +:+ t +:+ "..."]
  ∧ (∀ rows, res = OK rows → tables env !! t = Some rows).
Proof.
  unfold readTable, bind, console_log, modify. rewrite request_world. simpl.
  intros [= <- <-]. simpl. split; [done|]. split; [done|].
  intros rows Hrows%answer_of_ok_inv. by apply select_all_tables.
Qed.

Lemma extends_by_refl env w : extends_by env w w [] [].
Proof. unfold extends_by. by rewrite app_nil_r. Qed.

Lemma extends_by_trans env w1 w2 w3 us1 us2 l1 l2 :
  extends_by env w1 w2 us1 l1 → extends_by env w2 w3 us2 l2 →
  extends_by env w1 w3 (us1 ++ us2) (l1 ++ l2).
Proof.
  intros (Hd1 & Hs1 & Hc1 & Hp1) (Hd2 & Hs2 & Hc2 & Hp2). unfold extends_by.
  rewrite upsert_all_app, <- Hd1, Hd2, Hc2, Hc1, app_assoc.
  repeat split; try done; by apply Forall_app.
Qed.

Lemma embedRows_extends env t all rows w res w' :
  t ∈ TABLES_TO_EMBED → tables env !! t = Some all → rows ⊆ all →
  for_each (embedRow env t) rows w = (res, w') →
  ∃ us lines, extends_by env w w' us lines.
Proof.
  intros Ht Hall. revert w. induction rows as [|r rows IH]; intros w Hsub.
  { intros [= <- <-]. exists [], []. apply extends_by_refl. }
  assert (Hr : r ∈ all) by (apply Hsub; by left).
  assert (Hrows : rows ⊆ all) by (intros x Hx; apply Hsub; by right).
  simpl. unfold bind. destruct (embedRow env t r w) as [[[]|e] w1] eqn:Hrow.
  - intros Hrest.
    apply embedRow_cases in Hrow as [(e & He & _)|(_ & d & Hdoc & Hd & Hc)]; [done|].
    destruct (IH w1) as (us & lines & Hext); [done|done|].
    exists ([d] ++ us), (["📝  " +:+ t +:+ " " +:+ template (get "id" r)] ++ lines).
    eapply extends_by_trans; [|exact Hext].
    unfold extends_by. split; [done|]. split.
    + apply Forall_singleton. by exists t, all, r.
    + split; [done|]. apply Forall_singleton. eexists. right. reflexivity.
  - intros [= <- <-].
    apply embedRow_cases in Hrow as [(e' & _ & Hd & Hc)|(He & _)]; [|done].
    exists [], []. unfold extends_by. rewrite app_nil_r. by repeat split.
Qed.

Lemma embedTable_extends env t w res w' :
  t ∈ TABLES_TO_EMBED →
  embedTable env t w = (res, w') →
  ∃ us lines, extends_by env w w' us lines ∧ lines ≠ [].
Proof.
  intros Ht. unfold embedTable, bind.
  destruct (readTable env t w) as [[rows|e] w1] eqn:Hread;
    apply readTable_cases in Hread as (Hd & Hc & Hrows).
  - intros Hloop.
    destruct (embedRows_extends env t rows rows w1 res w' Ht (Hrows rows eq_refl))
      as (us & lines & Hext); [done|done|].
    exists ([] ++ us), (["⏳ Embedding " +:+ t +:+ "..."] ++ lines). split; [|done].
    eapply extends_by_trans; [|exact Hext].
    unfold extends_by. repeat split; try done.
    apply Forall_singleton. eexists. left. reflexivity.
  - intros [= <- <-]. exists [], ["⏳ Embedding " +:+ t +:+ "..."]. split; [|done].
    unfold extends_by. repeat split; try done.
    apply Forall_singleton. eexists. left. reflexivity.
Qed.

Lemma run_tables_extends env ts w res w' :
  ts ⊆ TABLES_TO_EMBED →
  run_tables env ts w = (res, w') →
  ∃ us lines, extends_by env w w' us lines ∧ (ts ≠ [] → lines ≠ []).
Proof.
  unfold run_tables. revert w. induction ts as [|t ts IH]; intros w Hsub.
  { intros [= <- <-]. exists [], []. split; [apply extends_by_refl|done]. }
  assert (Ht : t ∈ TABLES_TO_EMBED) by (apply Hsub; by left).
  assert (Hts : ts ⊆ TABLES_TO_EMBED) by (intros x Hx; apply Hsub; by right).
  simpl. unfold bind. destruct (embedTable env t w) as [[[]|e] w1] eqn:Htable;
    apply (embedTable_extends _ _ _ _ _ Ht) in Htable as (us1 & l1 & Hext1 & Hne).
  - intros Hrest. destruct (IH w1) as (us2 & l2 & Hext2 & _); [done|done|].
    exists (us1 ++ us2), (l1 ++ l2). split; [by eapply extends_by_trans|].
    intros _. destruct l1; [done|]. discriminate.
  - intros [= <- <-]. exists us1, l1. by split.
Qed.

(** A run that returns has logged the completion line last; a run that
    throws has logged progress lines only. *)
Lemma run_extends env w res w' :
  run env w = (res, w') →
  ∃ us lines,
    documents w' = upsert_all us (documents w)
    ∧ Forall (sourced env) us
    ∧ Forall progress_line lines ∧ lines ≠ []
    ∧ ((res = OK tt ∧ console w' = console w ++ lines ++ [DONE])
       ∨ ((∃ e, res = Err e) ∧ console w' = console w ++ lines)).
Proof.
  unfold run, bind.
  destruct (run_tables env TABLES_TO_EMBED w) as [[[]|e] w1] eqn:Htables;
    apply run_tables_extends in Htables as (us & lines & (Hd & Hs & Hc & Hp) & Hne);
    try done.
  - unfold console_log, modify. intros [= <- <-]. simpl.
    exists us, lines. repeat split; try done; [by apply Hne|].
    left. split; [done|]. by rewrite Hc, app_assoc.
  - intros [= <- <-]. exists us, lines. repeat split; try done; [by apply Hne|].
    right. eauto.
Qed.

(** *** What a run never does *)

Lemma length_upsert d (s : list (Document Vec)) : length s ≤ length (upsert d s).
Proof.
  destruct (existsb (conflicts d) s) eqn:Hp.
  - rewrite (upsert_present _ _ Hp), List.length_map. lia.
  - rewrite (upsert_absent _ _ Hp), length_app. lia.
Qed.

Lemma length_upsert_all us (s : list (Document Vec)) :
  length s ≤ length (upsert_all us s).
Proof.
  revert s. induction us as [|u us IH]; intros s; [done|].
  simpl. etrans; [apply (length_upsert u)|apply IH].
Qed.

Lemma keys_upsert d (s : list (Document Vec)) k : k ∈ keys s → k ∈ keys (upsert d s).
Proof.
  intros Hk. destruct (existsb (conflicts d) s) eqn:Hp.
  - by rewrite (upsert_present _ _ Hp), keys_map_step.
  - rewrite (upsert_absent _ _ Hp). unfold keys. rewrite omap_app.
    apply elem_of_app. by left.
Qed.

Lemma keys_upsert_all us (s : list (Document Vec)) k :
  k ∈ keys s → k ∈ keys (upsert_all us s).
Proof.
  revert s. induction us as [|u us IH]; intros s Hk; [done|].
  simpl. by apply IH, keys_upsert.
Qed.

(** X16. The Indexer never deletes. Whether a run returns or throws, the store
    holds at least as many documents after it as before, every key stored
    before is still stored, and a document whose key is the key of no source
    row (its row is gone) is still there, unchanged. *)
Theorem run_never_deletes env w res w' :
  run env w = (res, w') →
  length (documents w) ≤ length (documents w')
  ∧ (∀ k, k ∈ keys (documents w) → k ∈ keys (documents w'))
  ∧ (∀ x, x ∈ documents w →
       (∀ t rows r i, t ∈ TABLES_TO_EMBED → tables env !! t = Some rows → r ∈ rows →
          column (get "id" r) = Some i → doc_key x ≠ Some (t, i)) →
       x ∈ documents w').
Proof.
  intros (us & lines & Hd & Hs & _)%run_extends. rewrite Hd.
  split; [apply length_upsert_all|]. split; [by apply keys_upsert_all|].
  intros x Hx Hstale. apply upsert_all_keeps; [done|].
  intros u Hu. rewrite Forall_forall in Hs.
  destruct (Hs u Hu) as (t & rows & r & Ht & Htab & Hr & Hdoc).
  apply conflicts_false. intros k Hk Hxk.
  rewrite (doc_of_key _ _ _ _ Hdoc) in Hk.
  destruct (column (get "id" r)) as [i|] eqn:Hid; [|done]. injection Hk as <-.
  by eapply Hstale.
Qed.

(** *** Where a run stops *)

Lemma run_stops_at_row env pre t post rows_pre r rows_post w0 w1 w2 w3 e w4 :
  TABLES_TO_EMBED = pre ++ t :: post →
  run_tables env pre w0 = (OK tt, w1) →
  readTable env t w1 = (OK (rows_pre ++ r :: rows_post), w2) →
  for_each (embedRow env t) rows_pre w2 = (OK tt, w3) →
  embedRow env t r w3 = (Err e, w4) →
  run env w0 = (Err e, w4).
Proof.
  intros Htables Hpre Hread Hrows Hrow.
  assert (Htable : embedTable env t w1 = (Err e, w4)).
  { unfold embedTable. rewrite (bind_ok _ _ _ _ _ Hread).
    by apply for_each_stops with (w' := w3). }
  unfold run. apply bind_err. unfold run_tables in *. rewrite Htables.
  by apply for_each_stops with (w' := w1).
Qed.

(** X17. A refused upsert stops the run like a failed serialization or
    embedding: the run throws the error of the store, the row is not
    stored and gets no progress line, and nothing after it is attempted. *)
Theorem run_stops_when_upsert_fails
    env pre t post rows_pre r rows_post w0 w1 w2 w3 c w4 vec w5 e o :
  TABLES_TO_EMBED = pre ++ t :: post →
  run_tables env pre w0 = (OK tt, w1) →
  readTable env t w1 = (OK (rows_pre ++ r :: rows_post), w2) →
  for_each (embedRow env t) rows_pre w2 = (OK tt, w3) →
  serialize env t r w3 = (OK c, w4) →
  makeEmbedding env c w4 = (OK vec, w5) →
  pending w5 = Some e :: o →
  ∃ w6, run env w0 = (Err e, w6)
        ∧ documents w6 = documents w3
        ∧ console w6 = console w3
        ∧ pending w6 = o.
Proof.
  intros Htables Hpre Hread Hrows Hser Hemb Hpending.
  destruct (serialize_quiet _ _ _ _ _ _ Hser) as [Hd4 Hc4].
  assert (Hw5 : documents w5 = documents w4 ∧ console w5 = console w4).
  { unfold makeEmbedding in Hemb. rewrite request_world in Hemb. by injection Hemb as _ <-. }
  destruct Hw5 as [Hd5 Hc5].
  exists (mkWorld (documents w5) (console w5) o).
  split; [|simpl; split; [congruence|split; [congruence|done]]].
  eapply run_stops_at_row; try done.
  unfold embedRow. rewrite (bind_ok _ _ _ _ _ Hser), (bind_ok _ _ _ _ _ Hemb).
  apply bind_err. unfold upsert_request. apply bind_err.
  rewrite request_world, Hpending. reflexivity.
Qed.

(** X18. A table that cannot be read stops the run before any of its rows: the
    run throws, only the progress line of the table has been logged and the
    store is as the earlier tables left it. A table the store does not have
    is such a table. *)
Theorem run_stops_when_table_read_fails env pre t post w0 w1 :
  TABLES_TO_EMBED = pre ++ t :: post →
  run_tables env pre w0 = (OK tt, w1) →
  (∀ e, (readTable env t w1).1 = Err e →
     ∃ w2, run env w0 = (Err e, w2)
           ∧ documents w2 = documents w1
           ∧ console w2 = console w1 ++ ["⏳ Embedding " +:+ t +:+ "..."])
  ∧ (tables env !! t = None → ∃ e, (readTable env t w1).1 = Err e).
Proof.
  intros Htables Hpre. split.
  - intros e He. destruct (readTable env t w1) as [res w2] eqn:Hread.
    simpl in He. subst res. exists w2.
    destruct (readTable_cases _ _ _ _ _ Hread) as (Hd & Hc & _).
    split; [|done].
    unfold run. apply bind_err. unfold run_tables in *. rewrite Htables.
    apply for_each_stops with (w' := w1); [done|].
    unfold embedTable. by apply bind_err.
  - intros Hnone. unfold readTable, bind, console_log, modify.
    rewrite request_world. simpl. unfold select_all. rewrite Hnone.
    destruct (pending w1) as [|[e|] o]; simpl; eauto.
Qed.

(** *** The first indexing *)

Lemma upsert_all_fresh us (s : list (Document Vec)) :
  Forall (fun u => is_Some (doc_key u)) us → NoDup (keys us) →
  (∀ k, k ∈ keys us → k ∉ keys s) →
  upsert_all us s = s ++ us.
Proof.
  revert s. induction us as [|u us IH]; intros s Hkeyed Hnd Hfresh.
  { by rewrite app_nil_r. }
  apply Forall_cons in Hkeyed as [[k Hk] Hkeyed].
  unfold keys in Hnd, Hfresh. simpl in Hnd, Hfresh. rewrite Hk in Hnd, Hfresh.
  apply NoDup_cons in Hnd as [Hk_us Hnd].
  assert (Habsent : existsb (conflicts u) s = false).
  { destruct (existsb (conflicts u) s) eqn:Hp; [|done].
    apply present_iff in Hp as (k' & Hk' & Hin).
    assert (k' = k) as -> by congruence.
    destruct (Hfresh k); [by left|done]. }
  simpl. rewrite (upsert_absent _ _ Habsent), IH; try done.
  - by rewrite <- app_assoc.
  - intros k' Hk'. unfold keys. rewrite omap_app. simpl. rewrite Hk.
    intros [Hin|Hin%list_elem_of_singleton]%elem_of_app.
    + destruct (Hfresh k'); [by right|done].
    + subst k'. by apply Hk_us.
Qed.

Lemma length_omap_is_Some {A B} (f : A → option B) (l : list A) :
  Forall (fun a => is_Some (f a)) l → length (omap f l) = length l.
Proof.
  induction 1 as [|a l [b Hb] _ IH]; [done|].
  simpl. rewrite Hb. simpl. f_equal. exact IH.
Qed.

Lemma plan_length env ts :
  (∀ t, t ∈ ts → ∃ rows, select_all env t = OK rows
                         ∧ Forall (fun r => is_Some (doc_of env t r)) rows) →
  length (plan env ts)
  = sum_list (List.map (fun t => match tables env !! t with
                                 | Some rows => length rows
                                 | None => 0
                                 end) ts).
Proof.
  induction ts as [|t ts IH]; intros Hall; [done|].
  unfold plan. simpl. rewrite length_app. fold (plan env ts).
  rewrite IH by (intros t' Ht'; apply Hall; by right).
  destruct (Hall t) as (rows & Hsel & Hrows); [by left|].
  unfold plan_table. rewrite Hsel. apply select_all_tables in Hsel. rewrite Hsel.
  by rewrite length_omap_is_Some.
Qed.

Lemma first_run_documents env w w' :
  well_keyed env → documents w = [] →
  run env w = (OK tt, w') →
  documents w' = plan env TABLES_TO_EMBED
  ∧ length (documents w') = row_count env.
Proof.
  intros Hkeyed Hempty Hrun. apply run_ok in Hrun as [Hdocs Hrows].
  assert (Hplan : documents w' = plan env TABLES_TO_EMBED).
  { rewrite Hdocs, Hempty. rewrite upsert_all_fresh; [done| | |].
    - by apply plan_keyed.
    - apply NoDup_keys_plan; [done|apply NoDup_TABLES_TO_EMBED].
    - intros k _ Hk. by apply elem_of_nil in Hk. }
  split; [done|]. rewrite Hplan. unfold row_count. by apply plan_length.
Qed.

(** X19. The first indexing of well-keyed tables into an empty store stores one
    document per source row, in table order and row order, and nothing
    else: as many documents as there are rows. *)
Theorem first_run_stores_one_document_per_row env w w' :
  well_keyed env → documents w = [] →
  run env w = (OK tt, w') →
  documents w' = plan env TABLES_TO_EMBED
  ∧ length (documents w') = row_count env
  ∧ List.map source_table (documents w')
    = flat_map (fun t => match tables env !! t with
                         | Some rows => List.map (fun _ => t) rows
                         | None => []
                         end) TABLES_TO_EMBED.
Proof.
  intros Hkeyed Hempty Hrun.
  destruct (first_run_documents _ _ _ Hkeyed Hempty Hrun) as [Hplan Hlen].
  split; [done|]. split; [done|]. rewrite Hplan.
  apply run_ok in Hrun as [_ Hrows]. revert Hrows.
  generalize TABLES_TO_EMBED as ts.
  induction ts as [|t ts IH]; intros Hall; [done|].
  unfold plan. simpl. rewrite List.map_app. fold (plan env ts).
  rewrite IH by (intros t' Ht'; apply Hall; by right). f_equal.
  destruct (Hall t) as (rows & Hsel & Hrows); [by left|].
  unfold plan_table. rewrite Hsel. apply select_all_tables in Hsel. rewrite Hsel.
  clear Hsel Hall IH. induction Hrows as [|r rows [d Hd] _ IHrows]; [done|].
  simpl. rewrite Hd. simpl. f_equal; [|exact IHrows].
  unfold doc_of in Hd. destruct (fact env t r); [|done]. by injection Hd as <-.
Qed.

(** X20. [countDocs.js] after the first indexing reports the number of source
    rows, and exits with code 1 and no count when its request fails. *)
Theorem countDocuments_after_first_run env w w1 :
  well_keyed env → documents w = [] →
  run env w = (OK tt, w1) →
  (∀ e o, pending w1 ≠ Some e :: o) →
  (countDocuments w1).1
  = mkPrinted 0
      ["📄 documents table has " +:+ num_to_string (Z.of_nat (row_count env)) +:+ " rows"] [].
Proof.
  intros Hkeyed Hempty Hrun Hanswered.
  destruct (first_run_documents _ _ _ Hkeyed Hempty Hrun) as [_ Hlen].
  unfold countDocuments. rewrite request_world.
  destruct (pending w1) as [|[e|] o]; simpl; try (by rewrite Hlen).
  by destruct (Hanswered e o).
Qed.

(** X21. The process of the Indexer exits with code 0 exactly when the run went
    through every table, and then the completion line is the last line
    logged; when it exits with code 1 the error is reported, at least one
    progress line was logged and the completion line never was. *)
Theorem entrypoint_exit_code env w en w' :
  entrypoint env w = (en, w') →
  ∃ lines,
    console w' = console w ++ lines
    ∧ ((exit_code en = 0%Z ∧ reported en = None ∧ run env w = (OK tt, w')
        ∧ last lines = Some DONE)
       ∨ (exit_code en = 1%Z ∧ (∃ e, reported en = Some e ∧ run env w = (Err e, w'))
          ∧ lines ≠ [] ∧ DONE ∉ lines)).
Proof.
  unfold entrypoint. destruct (run env w) as [[[]|e] w1] eqn:Hrun; intros [= <- <-];
    apply run_extends in Hrun
      as (us & lines & _ & _ & Hp & Hne & [[Hres Hc]|[[e' Hres] Hc]]); try done.
  - exists (lines ++ [DONE]). split; [done|]. left. repeat split. apply last_snoc.
  - exists lines. split; [done|]. right. simpl. split; [done|]. split; [eauto|].
    split; [done|]. intros Hin. rewrite Forall_forall in Hp.
    by apply (progress_line_not_DONE DONE (Hp _ Hin)).
Qed.

End WithEmbedding.
End IndexerLaws.

(** ** Properties of the command line of the bot *)

Module CliFacts.
Import Js Effect QueryBot QueryBotFacts OrchestratorLaws Cli.
Local Open Scope js_scope.

Lemma join_space_empty (args : list string) :
  join " " args = "" ↔ args = [] ∨ args = [""].
Proof.
  destruct args as [|a [|b l]].
  - split; [by left|done].
  - simpl. split; [intros ->; by right|]. by intros [|[= ->]].
  - split; [|by intros [|]].
    change (join " " (a :: b :: l)) with (a +:+ " " +:+ join " " (b :: l)).
    destruct a; intros H; cbv in H; discriminate H.
Qed.

Section WithEmbedding.
Context {Vec : Type}.
Implicit Types (sh : Shell Vec) (p : Process).

Lemma greet_cases sh p :
  greet sh p =
  match answer_of (pending (world p)) (profile_of sh) with
  | OK data =>
      (OK tt, mkProcess (mkWorld (history_file (world p)) (tail (pending (world p))))
                (stdout p ++ [greeting data]) (stderr p))
  | Err e =>
      (Err e, mkProcess (mkWorld (history_file (world p)) (tail (pending (world p))))
                (stdout p) (stderr p))
  end.
Proof.
  unfold greet, bind, in_world, request, log, modify. simpl.
  by destruct (answer_of (pending (world p)) (profile_of sh)).
Qed.


(** X23. Without a question [main] asks nothing: the question is empty exactly
    when there is no argument or a single empty one, and then only the
    greeting request is made, the chat model is never called, no history is
    written and the process does not exit with code 0. *)
Theorem main_without_question sh args p :
  (join " " args = "" ↔ args = [] ∨ args = [""])
  ∧ (join " " args = "" →
       ∀ ex p', main sh args p = (ex, p') →
         ex ≠ ExitCode 0
         ∧ history_file (world p') = history_file (world p)
         ∧ pending (world p') = drop 1 (pending (world p))
         ∧ (ex = ExitCode 1 → stderr p' = stderr p ++ [USAGE])).
Proof.
  split; [apply join_space_empty|].
  intros Hq ex p'. unfold main. rewrite greet_cases, Hq.
  destruct (answer_of (pending (world p)) (profile_of sh)) as [data|e];
    simpl; intros [= <- <-]; simpl; repeat split; try done;
    by destruct (pending (world p)).
Qed.

(** X24. [greet] needs the profile of the user: when no row of [profiles], or
    more than one, has the id of the user, [main] ends with a rejection that
    nothing handles, whatever the question, and the question is never
    answered. *)
Theorem main_without_profile sh args p :
  length (Indexer.eq_filter "id" (Some (JStr (USER_ID (bot sh)))) (profiles sh)) ≠ 1 →
  ∃ e p', main sh args p = (Unhandled e, p')
          ∧ stdout p' = stdout p
          ∧ history_file (world p') = history_file (world p).
Proof.
  intros Hcount. unfold main. rewrite greet_cases.
  assert (Hprofile : ∃ e, profile_of sh = Err e).
  { unfold profile_of.
    destruct (Indexer.eq_filter "id" (Some (JStr (USER_ID (bot sh)))) (profiles sh))
      as [|a [|b l]]; simpl in *; [eauto|done|eauto]. }
  destruct Hprofile as [e0 ->].
  destruct (pending (world p)) as [|[e|] o]; simpl; eauto.
Qed.

End WithEmbedding.
End CliFacts.

(** ** The further statements at concrete worlds *)

Module HistoryLawWitnesses.
Import Js Effect QueryBot HistoryFacts HistoryLaws Examples.

Lemma loadHistory_bounded_suffix_witness :
  loadHistory "u1" (Holds (PObject {["u1" := twelve_turns]})) `suffix_of` twelve_turns
  ∧ length (loadHistory "u1" (Holds (PObject {["u1" := twelve_turns]}))) = 10.
Proof.
  apply (proj2 (loadHistory_bounded_suffix "u1" (Holds (PObject {["u1" := twelve_turns]})))
           {["u1" := twelve_turns]} twelve_turns); reflexivity.
Defined.

Lemma loadHistory_degrades_to_empty_witness :
  loadHistory "u3" (Holds (PObject two_users)) = [] ∧ loadHistory "u1" Unparseable = [].
Proof.
  split.
  - apply loadHistory_degrades_to_empty. do 3 right. exists two_users.
    split; reflexivity.
  - apply loadHistory_degrades_to_empty. right. by left.
Defined.


Lemma saveHistory_last_write_wins_witness :
  saveHistory "u1" (take 3 twelve_turns)
    (Holds (PObject (<["u1" := slice_last HISTORY_LIMIT twelve_turns]> two_users)))
  = saveHistory "u1" (take 3 twelve_turns) (Holds (PObject two_users)).
Proof.
  apply (saveHistory_last_write_wins "u1" twelve_turns (take 3 twelve_turns)
           (Holds (PObject two_users))).
  reflexivity.
Defined.

Lemma saveHistory_commutes_witness :
  saveHistory "u2" (take 3 twelve_turns)
    (Holds (PObject {["u1" := slice_last HISTORY_LIMIT twelve_turns]}))
  = saveHistory "u1" twelve_turns
      (Holds (PObject {["u2" := slice_last HISTORY_LIMIT (take 3 twelve_turns)]})).
Proof.
  apply (saveHistory_commutes "u1" "u2" twelve_turns (take 3 twelve_turns) Missing);
    [discriminate|reflexivity|reflexivity].
Defined.


Lemma two_users_bounded :
  ∀ u turns, two_users !! u = Some turns → length turns ≤ HISTORY_LIMIT.
Proof.
  intros u turns. unfold two_users.
  destruct (decide (u = "u2")) as [->|H2]; [rewrite lookup_insert_eq|rewrite lookup_insert_ne by done].
  { intros [= <-]. vm_compute. lia. }
  destruct (decide (u = "u1")) as [->|H1]; [rewrite lookup_insert_eq|rewrite lookup_insert_ne by done].
  { intros [= <-]. vm_compute. lia. }
  by rewrite lookup_empty.
Qed.

Lemma saveHistory_keeps_histories_bounded_witness :
  length (slice_last HISTORY_LIMIT twelve_turns) ≤ HISTORY_LIMIT
  ∧ length [mkTurn "user" "hello"] ≤ HISTORY_LIMIT.
Proof.
  split.
  - apply (saveHistory_keeps_histories_bounded two_users _ "u1" twelve_turns
             two_users_bounded eq_refl "u1").
    apply lookup_insert_eq.
  - apply (saveHistory_keeps_histories_bounded two_users _ "u1" twelve_turns
             two_users_bounded eq_refl "u2").
    vm_compute. reflexivity.
Defined.

End HistoryLawWitnesses.

Module OrchestratorLawWitnesses.
Import Js Effect QueryBot QueryBotFacts OrchestratorLaws Examples MoreExamples.


Lemma answer_failure_keeps_history_witness :
  history_file (answer env_bot question chat_down).2 = Holds (PObject two_users).
Proof.
  apply (proj1 (answer_failure_keeps_history env_bot question chat_down (UpstreamError "500")
                  (answer env_bot question chat_down).2 ltac:(vm_compute; reflexivity))).
Defined.


Lemma answer_other_users_unchanged_witness :
  loadHistory "u2"
    (history_file (answer env_bot question (mkWorld (Holds (PObject two_users)) [])).2)
  = loadHistory "u2" (Holds (PObject two_users)).
Proof.
  apply (answer_other_users_unchanged env_bot question
           (mkWorld (Holds (PObject two_users)) []) _ _ "u2"
           ltac:(apply surjective_pairing)).
  discriminate.
Defined.

End OrchestratorLawWitnesses.

Module IndexerLawWitnesses.
Import Js Effect Indexer IndexerFacts IndexerLaws Scripts Examples MoreExamples
       IndexerWitnesses.

Lemma serialize_needs_no_lookup_witness :
  ∃ c, serialize env_A "vendors" vendor_row world_outage = (OK c, world_outage).
Proof. apply serialize_needs_no_lookup. discriminate. Defined.



Lemma run_never_deletes_witness :
  stale_document ∈ documents (run env_A (mkWorld [stale_document] [] [])).2
  ∧ 1 ≤ length (documents (run env_A (mkWorld [stale_document] [] [])).2).
Proof.
  destruct (run_never_deletes env_A (mkWorld [stale_document] [] []) _ _
              ltac:(apply surjective_pairing)) as (Hlen & _ & Hkept).
  split; [|exact Hlen].
  apply Hkept; [by left|].
  intros t rows r i _ Htab Hr _ [= <- <-].
  vm_compute in Htab. injection Htab as <-. by apply elem_of_nil in Hr.
Defined.

Lemma run_stops_when_upsert_fails_witness :
  ∃ w6, run env_A world_refusal = (Err (StoreError "409 Conflict"), w6)
        ∧ List.map source_id (documents w6) = [Some (JStr "a1"); Some (JStr "c1")]
        ∧ pending w6 = [].
Proof.
  destruct (run_stops_when_upsert_fails env_A ["profiles"; "accounts"] "categories"
              (drop 3 TABLES_TO_EMBED)
              (take 1 categories_rows) (categories_rows !!! 1%nat) (drop 2 categories_rows)
              world_refusal
              (run_tables env_A ["profiles"; "accounts"] world_refusal).2
              (readTable env_A "categories"
                 (run_tables env_A ["profiles"; "accounts"] world_refusal).2).2
              (for_each (embedRow env_A "categories") (take 1 categories_rows)
                 (readTable env_A "categories"
                    (run_tables env_A ["profiles"; "accounts"] world_refusal).2).2).2
              (match fact env_A "categories" (categories_rows !!! 1%nat) with
               | OK c => c | Err _ => "" end)
              (mkWorld (documents (run env_A world_refusal).2)
                 (console (run env_A world_refusal).2)
                 [None; Some (StoreError "409 Conflict")])
              [80%Z]
              (mkWorld (documents (run env_A world_refusal).2)
                 (console (run env_A world_refusal).2)
                 [Some (StoreError "409 Conflict")])
              (StoreError "409 Conflict") [])
    as (w6 & Hrun & Hdocs & _ & Hp); try (vm_compute; reflexivity).
  exists w6. split; [exact Hrun|]. rewrite Hdocs. split; [vm_compute; reflexivity|exact Hp].
Defined.

Lemma run_stops_when_table_read_fails_witness :
  ∃ w2, run env_A world_timeout = (Err (StoreError "timeout"), w2)
        ∧ List.map source_id (documents w2) = [Some (JStr "a1")]
        ∧ last (console w2) = Some "⏳ Embedding categories...".
Proof.
  destruct (proj1 (run_stops_when_table_read_fails env_A ["profiles"; "accounts"]
                     "categories" (drop 3 TABLES_TO_EMBED) world_timeout
                     (run_tables env_A ["profiles"; "accounts"] world_timeout).2
                     eq_refl ltac:(vm_compute; reflexivity))
              (StoreError "timeout") ltac:(vm_compute; reflexivity))
    as (w2 & Hrun & Hdocs & Hconsole).
  exists w2. split; [exact Hrun|]. rewrite Hdocs, Hconsole.
  split; [vm_compute; reflexivity|apply last_snoc].
Defined.

Lemma first_run_stores_one_document_per_row_witness :
  length (documents (run env_A world_0).2) = 5
  ∧ List.map source_table (documents (run env_A world_0).2)
    = ["accounts"; "categories"; "categories"; "categories"; "account_snapshots"].
Proof.
  destruct (first_run_stores_one_document_per_row env_A world_0 (run env_A world_0).2
              env_A_well_keyed eq_refl ltac:(vm_compute; reflexivity))
    as (_ & Hlen & Htables).
  split; [etrans; [exact Hlen|]|etrans; [exact Htables|]]; vm_compute; reflexivity.
Defined.

Lemma countDocuments_after_first_run_witness :
  (countDocuments (run env_A world_0).2).1
  = mkPrinted 0 ["📄 documents table has 5 rows"] [].
Proof.
  etrans; [apply (countDocuments_after_first_run env_A world_0 (run env_A world_0).2
                    env_A_well_keyed eq_refl ltac:(vm_compute; reflexivity))|].
  - intros e o H. vm_compute in H. discriminate H.
  - vm_compute. reflexivity.
Defined.

Lemma entrypoint_exit_code_witness :
  ∃ lines,
    console (entrypoint env_A world_outage).2 = console world_outage ++ lines
    ∧ lines ≠ [] ∧ (DONE ∉ lines)
    ∧ exit_code (entrypoint env_A world_outage).1 = 1%Z.
Proof.
  destruct (entrypoint_exit_code env_A world_outage _ _ ltac:(apply surjective_pairing))
    as (lines & Hconsole & [(Hzero & _)|(Hone & _ & Hne & Hdone)]).
  - vm_compute in Hzero. discriminate Hzero.
  - by exists lines.
Defined.

End IndexerLawWitnesses.

Module CliWitnesses.
Import Js Effect QueryBot Cli CliFacts Examples MoreExamples.


Lemma main_without_question_witness :
  (main shell_bot [""] fresh_process).1 ≠ ExitCode 0
  ∧ history_file (world (main shell_bot [""] fresh_process).2) = Missing.
Proof.
  destruct (proj2 (main_without_question shell_bot [""] fresh_process) eq_refl _ _
              ltac:(apply surjective_pairing)) as (Hex & Hfile & _).
  by split.
Defined.

Lemma main_without_profile_witness :
  ∃ e p', main shell_stranger ["What"; "now?"] fresh_process = (Unhandled e, p')
          ∧ stdout p' = []
          ∧ history_file (world p') = Missing.
Proof.
  apply (main_without_profile shell_stranger ["What"; "now?"] fresh_process).
  vm_compute. lia.
Defined.

End CliWitnesses.
